(** * Dish generation and dietary preferences (utils/dish_generator.py)

    A shallow embedding of [generate_dishes_and_preferences] and of the
    read-only queries next to it, with the properties the design document
    states about them.

    The Python code reads and writes three pieces of ambient state: the
    object store (the numpy grid is copied and the copy is written in place),
    the process-wide random generator, and standard output.  The embedding
    threads one [world] holding the three through a small state-and-exception
    monad [Py]. *)

From Stdlib Require Import Ascii.
From stdpp Require Import gmap strings list fin_maps pretty.

Local Open Scope Z_scope.

(** ** Data model *)

(** A 2-dimensional numpy array of single-character labels, as its rows. *)
Abbreviation ndarray := (list (list ascii)).

(** References to arrays in the object store. *)
Abbreviation loc := positive.

(** The [start] and [stop] of a Python [slice]; the code reads nothing else. *)
Record slice := Slice { start : Z; stop : Z }.

(** [Dict[int, str]]: person number to dietary preference. *)
Abbreviation prefs := (gmap Z string).

(** [(row, col, dish_type)] *)
Abbreviation dish := (Z * Z * string)%type.

Inductive exn := KeyError | IndexError | TypeError.

Inductive outcome (A : Type) :=
| Ret (a : A)
| Raise (e : exn).
Arguments Ret {A} a.
Arguments Raise {A} e.

Record world := World {
  heap : gmap loc ndarray;   (* the numpy arrays alive in the interpreter *)
  tape : list nat;           (* the draws the random generator will deliver *)
  stdout : list string       (* the lines printed so far, oldest first *)
}.

(** ** The monad *)

Definition Py (A : Type) : Type := world → outcome A * world.

Definition ret {A} (a : A) : Py A := λ w, (Ret a, w).

Definition bind {A B} (m : Py A) (k : A → Py B) : Py B := λ w,
  match m w with
  | (Ret a, w') => k a w'
  | (Raise e, w') => (Raise e, w')
  end.

Definition raise {A} (e : exn) : Py A := λ w, (Raise e, w).

Declare Scope py_scope.
Delimit Scope py_scope with py.
Notation "x ← y ; z" := (bind y (λ x : _, z))
  (at level 20, y at level 100, z at level 200, only parsing) : py_scope.
Notation "' x ← y ; z" := (bind y (λ x : _, z))
  (at level 20, x pattern, y at level 100, z at level 200, only parsing) : py_scope.
Notation "x ;; z" := (bind x (λ _, z))
  (at level 100, z at level 200, only parsing, right associativity) : py_scope.

Local Open Scope py_scope.

(** [for x in l: body], with the local variables the body updates as [acc]. *)
Fixpoint for_each {A B} (l : list A) (body : A → B → Py B) (acc : B) : Py B :=
  match l with
  | [] => ret acc
  | x :: l' => acc' ← body x acc; for_each l' body acc'
  end.

(** [range(a, b)] over the integers, and [range(n)]. *)
Definition range (a b : Z) : list Z := seqZ a (b - a).
Definition range_nat (n : nat) : list nat := seq 0 n.

(** [enumerate(l)] *)
Definition enumerate {A} (l : list A) : list (nat * A) := imap (λ i x, (i, x)) l.

(** ** Primitives *)

(** [print(s)] *)
Definition print (s : string) : Py unit := λ w,
  (Ret tt, World (heap w) (tape w) (stdout w ++ [s])).

(** One draw of the generator, an integer below [n].  The tape supplies the
    raw draws; an exhausted tape keeps delivering 0. *)
Definition randbelow (n : nat) : Py nat := λ w,
  match tape w with
  | [] => (Ret 0%nat, w)
  | x :: t => (Ret (x mod n)%nat, World (heap w) t (stdout w))
  end.

(** [l[i]] on a Python list, for an index that is not negative. *)
Definition list_getitem {A} (l : list A) (i : nat) : Py A :=
  match l !! i with
  | Some x => ret x
  | None => raise IndexError
  end.

(** [random.choice(seq)]: [seq[randbelow(len(seq))]]. *)
Definition random_choice {A} (seq : list A) : Py A :=
  match seq with
  | [] => raise IndexError
  | _ => i ← randbelow (length seq); list_getitem seq i
  end.

(** [x[i], x[j] = x[j], x[i]]: the right-hand side is read first, then
    [x[i]] and [x[j]] are assigned in this order. *)
Definition swap {A} (i j : nat) (x : list A) : list A :=
  match x !! i, x !! j with
  | Some xi, Some xj => <[j:=xi]> (<[i:=xj]> x)
  | _, _ => x
  end.

(** [random.shuffle(x)]:
    [for i in reversed(range(1, len(x))): j = randbelow(i + 1); swap]. *)
Definition random_shuffle {A} (x : list A) : Py (list A) :=
  for_each (reverse (seq 1 (length x - 1)))
    (λ i x, j ← randbelow (i + 1); ret (swap i j x)) x.

(** numpy's handling of one index against an axis of length [n]: a negative
    index counts from the end, anything outside is an [IndexError]. *)
Definition norm_index (n : nat) (i : Z) : option nat :=
  let j := if bool_decide (i < 0) then i + Z.of_nat n else i in
  if bool_decide (0 ≤ j < Z.of_nat n) then Some (Z.to_nat j) else None.

Definition ndarray_get (a : ndarray) (r c : Z) : option ascii :=
  (i ← norm_index (length a) r;
   row ← a !! i;
   j ← norm_index (length row) c;
   row !! j)%stdpp.

Definition ndarray_set (a : ndarray) (r c : Z) (v : ascii) : option ndarray :=
  (i ← norm_index (length a) r;
   row ← a !! i;
   j ← norm_index (length row) c;
   Some (<[i:=<[j:=v]> row]> a))%stdpp.

(** [grid[row, col]] *)
Definition ndarray_getitem (grid : loc) (row col : Z) : Py ascii := λ w,
  match heap w !! grid with
  | None => (Raise TypeError, w)
  | Some a =>
      match ndarray_get a row col with
      | Some v => (Ret v, w)
      | None => (Raise IndexError, w)
      end
  end.

(** [grid[row, col] = v] *)
Definition ndarray_setitem (grid : loc) (row col : Z) (v : ascii) : Py unit := λ w,
  match heap w !! grid with
  | None => (Raise TypeError, w)
  | Some a =>
      match ndarray_set a row col v with
      | Some a' => (Ret tt, World (<[grid:=a']> (heap w)) (tape w) (stdout w))
      | None => (Raise IndexError, w)
      end
  end.

(** [grid.copy()]: a new array object with the same contents. *)
Definition ndarray_copy (grid : loc) : Py loc := λ w,
  match heap w !! grid with
  | None => (Raise TypeError, w)
  | Some a =>
      let l := fresh (dom (heap w)) in
      (Ret l, World (<[l:=a]> (heap w)) (tape w) (stdout w))
  end.

(** [rooms['K']] *)
Definition dict_getitem {V} (d : gmap string V) (k : string) : Py V :=
  match d !! k with
  | Some v => ret v
  | None => raise KeyError
  end.

(** [sum(1 for p in person_preferences.values() if p == label)] *)
Definition count_values (label : string) (d : prefs) : nat :=
  length (filter (λ p, p = label) (map_to_list d).*2).

(** ** generate_dishes_and_preferences

    The body of the function is one straight line of three loops; each loop is
    given a name here (lines of dish_generator.py in brackets) and the
    function composes them in the order of the source. *)

Definition preferences : list string := ["vegan"; "non-vegetarian"].

(** [38-53] Randomly assign preferences with some balance. *)
Definition assign_preferences (num_people : nat) : Py prefs :=
  for_each (range_nat num_people)
    (λ i (person_preferences : prefs),
       let person_num := Z.of_nat i + 1 in
       (* Create a balanced distribution *)
       if decide (i < num_people `div` 2)%nat then
         p ← random_choice preferences;
         ret (<[person_num:=p]> person_preferences)
       else
         (* Ensure we have at least some of each type *)
         let remaining_vegan := count_values "vegan" person_preferences in
         let remaining_non_veg := count_values "non-vegetarian" person_preferences in
         if decide (remaining_vegan = 0%nat) then
           ret (<[person_num:="vegan"]> person_preferences)
         else if decide (remaining_non_veg = 0%nat) then
           ret (<[person_num:="non-vegetarian"]> person_preferences)
         else
           p ← random_choice preferences;
           ret (<[person_num:=p]> person_preferences))
    (∅ : prefs).

(** [56-63] Find valid positions in kitchen for dishes.  The test is a Python
    [and] chain: an occupied position is skipped without reading the grid. *)
Definition valid_position_test (grid : loc) (occupied_positions : gset (Z * Z))
    (row col : Z) : Py bool :=
  if decide ((row, col) ∉ occupied_positions) then
    cell ← ndarray_getitem grid row col;
    ret (bool_decide ((cell ∉ ["W"; "d"; "k"; "F"]%char) ∧ cell = "K"%char))
  else ret false.

Definition find_valid_kitchen_positions (grid : loc)
    (kitchen_rows kitchen_cols : slice) (occupied_positions : gset (Z * Z))
  : Py (list (Z * Z)) :=
  for_each (range (start kitchen_rows) (stop kitchen_rows))
    (λ row valid_kitchen_positions,
       for_each (range (start kitchen_cols) (stop kitchen_cols))
         (λ col (valid_kitchen_positions : list (Z * Z)),
            ok ← valid_position_test grid occupied_positions row col;
            if ok then ret (valid_kitchen_positions ++ [(row, col)])
            else ret valid_kitchen_positions)
         valid_kitchen_positions)
    [].

(** ['vegan' if dish_type == 'V' else 'non-vegetarian'] *)
Definition dish_type_name (dish_type : ascii) : string :=
  if decide (dish_type = "V"%char) then "vegan" else "non-vegetarian".

(** [85-92] Place dishes. *)
Definition place_dishes (grid_copy : loc) (valid_kitchen_positions : list (Z * Z))
    (dishes_to_place : list ascii) : Py (list dish) :=
  for_each (enumerate dishes_to_place)
    (λ '(i, dish_type) (dish_positions : list dish),
       if decide (i < length valid_kitchen_positions)%nat then
         '(row, col) ← list_getitem valid_kitchen_positions i;
         ndarray_setitem grid_copy row col dish_type;;
         ret (dish_positions ++ [(row, col, dish_type_name dish_type)])
       else
         print ("Could not place dish " +:+ pretty (i + 1)%nat
                +:+ " - no more valid positions");;
         ret dish_positions)
    [].

Definition generate_dishes_and_preferences
    (grid : loc) (rooms : gmap string (slice * slice))
    (people_positions : list (Z * Z)) (occupied_positions : gset (Z * Z))
  : Py (loc * prefs * list dish) :=
  (* Get kitchen area *)
  kitchen_slice ← dict_getitem rooms "K";
  let '(kitchen_rows, kitchen_cols) := kitchen_slice in
  (* Number of people (dishes needed) *)
  let num_people := length people_positions in
  (* Generate dietary preferences for each person *)
  person_preferences ← assign_preferences num_people;
  (* Find valid positions in kitchen for dishes *)
  valid_kitchen_positions ←
    find_valid_kitchen_positions grid kitchen_rows kitchen_cols occupied_positions;
  (* Check if we have enough space for all dishes *)
  (if decide (length valid_kitchen_positions < num_people)%nat then
     print ("Warning: Only " +:+ pretty (length valid_kitchen_positions)
            +:+ " valid positions found in kitchen for "
            +:+ pretty num_people +:+ " dishes");;
     print "Some dishes may not be placed or may overlap"
   else ret tt);;
  (* Place dishes in kitchen *)
  grid_copy ← ndarray_copy grid;
  (* Shuffle positions to randomize placement *)
  valid_kitchen_positions ← random_shuffle valid_kitchen_positions;
  (* Create dishes based on preferences *)
  let vegan_count := count_values "vegan" person_preferences in
  let non_veg_count := count_values "non-vegetarian" person_preferences in
  dishes_to_place ←
    random_shuffle (replicate vegan_count "V"%char ++ replicate non_veg_count "N"%char);
  dish_positions ← place_dishes grid_copy valid_kitchen_positions dishes_to_place;
  ret (grid_copy, person_preferences, dish_positions).

(** ** The read-only queries *)

(** [person_preferences.get(person_number, 'unknown')] *)
Definition get_person_dietary_preference (person_number : Z)
    (person_preferences : prefs) : string :=
  default "unknown" (person_preferences !! person_number).

(** [[(row, col) for row, col, dtype in dish_positions if dtype == dish_type]] *)
Definition find_dishes_by_type (dish_positions : list dish) (dish_type : string)
  : list (Z * Z) :=
  (λ d : dish, (d.1.1, d.1.2)) <$> filter (λ d : dish, d.2 = dish_type) dish_positions.

(** The dictionary [get_dish_assignment_summary] returns, one field per key.
    The people lists follow the enumeration order of the map. *)
Record summary := Summary {
  total_people : nat;
  vegan_people : list Z;
  non_vegetarian_people : list Z;
  vegan_people_count : nat;
  non_vegetarian_people_count : nat;
  vegan_dishes_positions : list (Z * Z);
  non_vegetarian_dishes_positions : list (Z * Z);
  vegan_dishes_count : nat;
  non_vegetarian_dishes_count : nat
}.

(** [[p for p, pref in person_preferences.items() if pref == label]] *)
Definition people_with (label : string) (person_preferences : prefs) : list Z :=
  (filter (λ kv : Z * string, kv.2 = label) (map_to_list person_preferences)).*1.

Definition get_dish_assignment_summary (person_preferences : prefs)
    (dish_positions : list dish) : summary :=
  let vegan_people := people_with "vegan" person_preferences in
  let non_veg_people := people_with "non-vegetarian" person_preferences in
  let vegan_dishes := find_dishes_by_type dish_positions "vegan" in
  let non_veg_dishes := find_dishes_by_type dish_positions "non-vegetarian" in
  {| total_people := size person_preferences;
     vegan_people := vegan_people;
     non_vegetarian_people := non_veg_people;
     vegan_people_count := length vegan_people;
     non_vegetarian_people_count := length non_veg_people;
     vegan_dishes_positions := vegan_dishes;
     non_vegetarian_dishes_positions := non_veg_dishes;
     vegan_dishes_count := length vegan_dishes;
     non_vegetarian_dishes_count := length non_veg_dishes |}.

(** * Specification vocabulary *)

(** [wp m w Q E]: run from [w], [m] either returns a value and a world in [Q]
    or raises an exception and leaves a world in [E]. *)
Definition wp {A} (m : Py A) (w : world)
    (Q : A → world → Prop) (E : exn → world → Prop) : Prop :=
  match m w with
  | (Ret a, w') => Q a w'
  | (Raise e, w') => E e w'
  end.

Definition is_label (v : string) : Prop := v = "vegan" ∨ v = "non-vegetarian".

#[global] Instance is_label_dec v : Decision (is_label v).
Proof. unfold is_label. apply _. Defined.

(** What [assign_preferences n] guarantees of the map it returns. *)
Record allocated (n : nat) (p : prefs) : Prop := Allocated {
  alloc_keys : ∀ k : Z, is_Some (p !! k) ↔ 1 ≤ k ≤ Z.of_nat n;
  alloc_labels : ∀ (k : Z) v, p !! k = Some v → is_label v;
  alloc_total : (count_values "vegan" p + count_values "non-vegetarian" p = n)%nat;
  alloc_both : (2 ≤ n)%nat →
    (1 ≤ count_values "vegan" p)%nat ∧ (1 ≤ count_values "non-vegetarian" p)%nat;
  alloc_single : n = 1%nat → p !! 1 = Some "vegan"
}.

(** The coordinates of a region in scan order: rows ascending, and columns
    ascending within a row. *)
Definition region (kitchen_rows kitchen_cols : slice) : list (Z * Z) :=
  (row ← range (start kitchen_rows) (stop kitchen_rows);
   (row,.) <$> range (start kitchen_cols) (stop kitchen_cols))%stdpp.

(** An eligible cell: unoccupied and labelled kitchen floor. *)
Definition eligible (a : ndarray) (occupied : gset (Z * Z)) (rc : Z * Z) : Prop :=
  (rc ∉ occupied) ∧ ndarray_get a rc.1 rc.2 = Some "K"%char.

#[global] Instance eligible_dec a occupied rc : Decision (eligible a occupied rc).
Proof. unfold eligible. apply _. Defined.

Definition eligible_cells (a : ndarray) (kitchen_rows kitchen_cols : slice)
    (occupied : gset (Z * Z)) : list (Z * Z) :=
  filter (eligible a occupied) (region kitchen_rows kitchen_cols).

(** The scanner reads the grid at [rc] unless [rc] is occupied. *)
Definition in_bounds (a : ndarray) (occupied : gset (Z * Z)) (rc : Z * Z) : Prop :=
  rc ∉ occupied → is_Some (ndarray_get a rc.1 rc.2).

#[global] Instance in_bounds_dec a occupied rc : Decision (in_bounds a occupied rc).
Proof. unfold in_bounds. apply _. Defined.

(** The region can be scanned without an [IndexError]. *)
Definition readable (a : ndarray) (kitchen_rows kitchen_cols : slice)
    (occupied : gset (Z * Z)) : Prop :=
  Forall (in_bounds a occupied) (region kitchen_rows kitchen_cols).

(** The lengths of the rows; writing a cell does not change them. *)
Definition shape (a : ndarray) : list nat := length <$> a.

(** The grid after a sequence of cell writes, in order. *)
Fixpoint write_all (a : ndarray) (l : list (Z * Z * ascii)) : option ndarray :=
  match l with
  | [] => Some a
  | (r, c, v) :: l => a' ← ndarray_set a r c v; write_all a' l
  end%stdpp.

(** Item [i] paired with cell [i], as far as both lists go. *)
Definition placements (valid : list (Z * Z)) (dishes : list ascii)
  : list (Z * Z * ascii) :=
  zip_with (λ rc dish_type, (rc.1, rc.2, dish_type)) valid dishes.

Definition dish_entry (x : Z * Z * ascii) : dish :=
  (x.1.1, x.1.2, dish_type_name x.2).

(** Everything a successful call determines, in terms of the two shuffled
    lists [valid] (the eligible cells) and [dishes] (the dish characters). *)
Record generated (a : ndarray) (kitchen_rows kitchen_cols : slice)
    (n : nat) (occupied : gset (Z * Z)) (w : world)
    (g : loc) (p : prefs) (d : list dish) (w' : world)
    (valid : list (Z * Z)) (dishes : list ascii) (final : ndarray) : Prop :=
  Generated {
    gen_prefs : allocated n p;
    gen_readable : readable a kitchen_rows kitchen_cols occupied;
    gen_valid : valid ≡ₚ eligible_cells a kitchen_rows kitchen_cols occupied;
    gen_dishes : dishes ≡ₚ replicate (count_values "vegan" p) "V"%char
                           ++ replicate (count_values "non-vegetarian" p) "N"%char;
    gen_list : d = dish_entry <$> placements valid dishes;
    gen_fresh : heap w !! g = None;
    gen_final : write_all a (placements valid dishes) = Some final;
    gen_heap : heap w' = <[g:=final]> (heap w)
  }.

(** ['V'] for a ['vegan'] entry, ['N'] for a ['non-vegetarian'] one. *)
Definition dish_char (t : string) : ascii :=
  if decide (t = "vegan") then "V"%char else "N"%char.

(** Each placed coordinate of the returned grid bears the character of its
    list entry. *)
Definition bears_dishes (final : ndarray) (d : list dish) : Prop :=
  ∀ r c t, (r, c, t) ∈ d → ndarray_get final r c = Some (dish_char t).

(** The returned grid equals the input grid at every cell that is not placed. *)
Definition differs_only_at (a final : ndarray) (d : list dish) : Prop :=
  ∀ r c, 0 ≤ r → 0 ≤ c → (∀ t, (r, c, t) ∉ d) →
    ndarray_get final r c = ndarray_get a r c.

(** ** Worked examples *)

Module Examples.

(** A 2x3 house with four kitchen-floor cells, three people. *)
Definition grid : ndarray := [["W"; "K"; "K"]; ["K"; "d"; "K"]]%char.

Definition rooms : gmap string (slice * slice) :=
  {["K" := (Slice 0 2, Slice 0 3)]}.

Definition people : list (Z * Z) := [(5, 5); (6, 6); (7, 7)].

Definition world0 : world :=
  World {[1%positive := grid]} [1; 1; 0; 2; 1; 3; 0; 1]%nat [].

(** What a call returned and the world it left; a call that raised shows as
    an empty result. *)
Definition returned (r : outcome (loc * prefs * list dish) * world)
  : loc * prefs * list dish * world :=
  match r with
  | (Ret x, w') => (x, w')
  | (Raise _, w') => ((1%positive, ∅, []), w')
  end.

Definition out : loc * prefs * list dish * world :=
  Eval vm_compute in
    returned (generate_dishes_and_preferences 1%positive rooms people ∅ world0).

(** Five people, and all but three floor cells occupied. *)
Definition crowd : list (Z * Z) := [(5, 5); (6, 6); (7, 7); (8, 8); (9, 9)].

Definition occupied : gset (Z * Z) := {[ (0, 1) ]}.

Definition out_crowd : loc * prefs * list dish * world :=
  Eval vm_compute in
    returned (generate_dishes_and_preferences 1%positive rooms crowd occupied world0).

(** One person. *)
Definition single : list (Z * Z) := [(5, 5)].

Definition out_single : loc * prefs * list dish * world :=
  Eval vm_compute in
    returned (generate_dishes_and_preferences 1%positive rooms single ∅ world0).

(** A region whose row range runs from -1 to 1 over a grid of two rows:
    rows -1 and 1 are the same row of the array. *)
Definition narrow_grid : ndarray := [["W"]; ["K"]]%char.

Definition wrapping_rooms : gmap string (slice * slice) :=
  {["K" := (Slice (-1) 2, Slice 0 1)]}.

Definition couple : list (Z * Z) := [(5, 5); (6, 6)].

Definition narrow_world : world := World {[1%positive := narrow_grid]} [] [].

End Examples.

(** ** Vocabulary of the further properties *)

(** Only the random generator moved: same store, same output. *)
Definition quiet (w w' : world) : Prop :=
  heap w' = heap w ∧ stdout w' = stdout w.

(** The two lines printed when the kitchen is too small [66-68]. *)
Definition warning_lines (M N : nat) : list string :=
  ["Warning: Only " +:+ pretty M +:+ " valid positions found in kitchen for "
     +:+ pretty N +:+ " dishes";
   "Some dishes may not be placed or may overlap"].

(** The line printed for the dish of index [i] that finds no cell [92]. *)
Definition unplaced_line (i : nat) : string :=
  "Could not place dish " +:+ pretty (i + 1)%nat +:+ " - no more valid positions".

(** Everything one call prints, for [M] eligible cells and [N] occupants. *)
Definition diagnostics (M N : nat) : list string :=
  if decide (M < N)%nat
  then warning_lines M N ++ (unplaced_line <$> seq M (N - M))
  else [].

(** The coordinates of a dish placement list. *)
Definition dish_cells (d : list dish) : list (Z * Z) := (λ x : dish, x.1) <$> d.

Module MoreExamples.

(** The first worked example with nobody at home. *)
Definition out_empty : loc * prefs * list dish * world :=
  Eval vm_compute in
    Examples.returned
      (generate_dishes_and_preferences 1%positive Examples.rooms [] ∅
         Examples.world0).

(** A second call, on the grid the first worked example returned and in the
    world it left. *)
Definition out_second : loc * prefs * list dish * world :=
  Eval vm_compute in
    Examples.returned
      (generate_dishes_and_preferences Examples.out.1.1.1 Examples.rooms
         Examples.people ∅ Examples.out.2).


End MoreExamples.

(** * Proofs *)

(** ** Reasoning about [Py] programs *)

Section wp_rules.
Context {A B : Type}.
Implicit Types (Q : A → world → Prop) (E : exn → world → Prop).

Lemma wp_ret a w Q E : Q a w → wp (ret a) w Q E.
Proof. done. Qed.

Lemma wp_raise e w Q E : E e w → wp (raise e) w Q E.
Proof. done. Qed.

Lemma wp_bind (m : Py A) (k : A → Py B) w (R : B → world → Prop) E :
  wp m w (λ a w', wp (k a) w' R E) E → wp (bind m k) w R E.
Proof. unfold wp, bind. by destruct (m w) as [[a|e] w']. Qed.

Lemma wp_mono (m : Py A) w Q Q' E E' :
  wp m w Q E →
  (∀ a w', Q a w' → Q' a w') → (∀ e w', E e w' → E' e w') →
  wp m w Q' E'.
Proof. unfold wp. destruct (m w) as [[a|e] w']; auto. Qed.

Lemma wp_run (m : Py A) w Q E a w' :
  wp m w Q E → m w = (Ret a, w') → Q a w'.
Proof. unfold wp. intros H Hrun. by rewrite Hrun in H. Qed.

End wp_rules.

(** The loop rule: an invariant indexed by the number of iterations done. *)
Lemma wp_for_each {A B} (I : nat → B → world → Prop) E
    (l : list A) (body : A → B → Py B) acc w :
  I 0%nat acc w →
  (∀ i x acc w, l !! i = Some x → I i acc w → wp (body x acc) w (I (S i)) E) →
  wp (for_each l body acc) w (I (length l)) E.
Proof.
  revert I acc w. induction l as [|x l IH]; intros I acc w H0 Hstep; [done|].
  cbn [for_each]. apply wp_bind.
  eapply wp_mono; [by apply (Hstep 0%nat x) | | done].
  intros acc' w' H1. cbn [length].
  apply (IH (λ i, I (S i))); [done|].
  intros i y acc'' w'' Hy. by apply (Hstep (S i)).
Qed.

Lemma wp_print s w E (Q : unit → world → Prop) :
  (∀ w', heap w' = heap w → Q tt w') → wp (print s) w Q E.
Proof. intros H. by apply H. Qed.

Lemma wp_randbelow n w E (Q : nat → world → Prop) :
  (∀ j w', (n ≠ 0 → j < n)%nat → heap w' = heap w → Q j w') →
  wp (randbelow n) w Q E.
Proof.
  intros H. unfold wp, randbelow. destruct (tape w) as [|x t].
  - apply H; [lia | done].
  - apply H; [|done]. intros ?. by apply Nat.mod_upper_bound.
Qed.

Lemma wp_random_choice_preferences w E (Q : string → world → Prop) :
  (∀ p w', p = "vegan" ∨ p = "non-vegetarian" → heap w' = heap w → Q p w') →
  wp (random_choice preferences) w Q E.
Proof.
  intros H. apply wp_bind, wp_randbelow.
  intros j w' Hj Hw'. unfold preferences in *. cbn [length] in Hj.
  destruct j as [|[|j]]; [apply wp_ret, H; auto.. | lia].
Qed.

Lemma swap_Permutation {A} (i j : nat) (x : list A) : swap i j x ≡ₚ x.
Proof.
  unfold swap. destruct (x !! i) as [xi|] eqn:Hi; [|done].
  destruct (x !! j) as [xj|] eqn:Hj; [|done].
  by apply Permutation_insert_swap.
Qed.

Lemma wp_random_shuffle {A} (x : list A) w E (Q : list A → world → Prop) :
  (∀ y w', y ≡ₚ x → heap w' = heap w → Q y w') →
  wp (random_shuffle x) w Q E.
Proof.
  intros H. unfold random_shuffle.
  eapply wp_mono;
    [apply (wp_for_each (λ _ y w', y ≡ₚ x ∧ heap w' = heap w) E) | | done].
  - done.
  - intros i k y w1 _ [Hy Hw1]. apply wp_bind, wp_randbelow.
    intros j w2 _ Hw2. apply wp_ret. split; [|congruence].
    by rewrite swap_Permutation.
  - intros y w' [??]. by apply H.
Qed.

(** ** The preference allocator *)

Lemma count_values_empty label : count_values label ∅ = 0%nat.
Proof. unfold count_values. by rewrite map_to_list_empty. Qed.

Lemma count_values_insert label (k : Z) v (p : prefs) :
  p !! k = None →
  count_values label (<[k:=v]> p)
  = ((if decide (v = label) then 1 else 0) + count_values label p)%nat.
Proof.
  intros Hk. unfold count_values. rewrite map_to_list_insert by done.
  rewrite fmap_cons, filter_cons. cbn [snd]. by case_decide.
Qed.

Lemma count_values_pos label (p : prefs) :
  (1 ≤ count_values label p)%nat ↔ ∃ k : Z, p !! k = Some label.
Proof.
  unfold count_values. split.
  - intros Hc.
    destruct (filter (λ v, v = label) (map_to_list p).*2) as [|v l] eqn:Hf;
      [cbn in Hc; lia|].
    assert (v ∈ filter (λ v, v = label) (map_to_list p).*2) as Hv
      by (rewrite Hf; left).
    apply list_elem_of_filter in Hv as [-> Hv].
    apply list_elem_of_fmap in Hv as ([k v] & -> & Hkv).
    exists k. by apply elem_of_map_to_list.
  - intros [k Hk].
    assert (label ∈ filter (λ v, v = label) (map_to_list p).*2) as Hin.
    { apply list_elem_of_filter. split; [done|].
      apply list_elem_of_fmap. exists (k, label). split; [done|].
      by apply elem_of_map_to_list. }
    destruct (filter _ _); [by apply elem_of_nil in Hin | cbn; lia].
Qed.

(** The loop of the allocator never raises, touches nothing but the random
    generator, and ends with a map that is [allocated]. *)
Lemma wp_assign_preferences n w E (Q : prefs → world → Prop) :
  (∀ p w', allocated n p → heap w' = heap w → Q p w') →
  wp (assign_preferences n) w Q E.
Proof.
  intros HQ. unfold assign_preferences, range_nat.
  pose (I := λ (i : nat) (p : prefs) (w' : world),
    heap w' = heap w ∧
    (∀ k : Z, is_Some (p !! k) ↔ 1 ≤ k ≤ Z.of_nat i) ∧
    (∀ (k : Z) v, p !! k = Some v → is_label v) ∧
    (count_values "vegan" p + count_values "non-vegetarian" p = i)%nat ∧
    ((2 ≤ n)%nat → (n `div` 2 < i)%nat →
       (1 ≤ count_values "vegan" p)%nat ∧ (1 ≤ count_values "non-vegetarian" p)%nat) ∧
    (n = 1%nat → i = 1%nat → p !! 1 = Some "vegan")).
  assert (∀ i (p : prefs) v w1 w2, I i p w1 → heap w2 = heap w1 → is_label v →
    ((2 ≤ n)%nat → (n `div` 2 < S i)%nat →
       (1 ≤ count_values "vegan" (<[(Z.of_nat i + 1)%Z:=v]> p))%nat ∧
       (1 ≤ count_values "non-vegetarian" (<[(Z.of_nat i + 1)%Z:=v]> p))%nat) →
    (n = 1%nat → v = "vegan") →
    I (S i) (<[Z.of_nat i + 1:=v]> p) w2) as Hins.
  { intros i p v w1 w2 (Hh & Hk & Hl & Ht & Hb & _) Hw2 Hv Hboth Hone.
    assert (p !! (Z.of_nat i + 1) = None) as Hfresh.
    { apply eq_None_not_Some. rewrite Hk. lia. }
    split_and!.
    - congruence.
    - intros k. rewrite lookup_insert_is_Some, Hk. lia.
    - intros k v'. rewrite lookup_insert_Some. intros [[_ <-]|[_ ?]]; eauto.
    - rewrite !count_values_insert by done.
      destruct Hv as [-> | ->]; repeat case_decide; simplify_eq; lia.
    - done.
    - intros Hn [= ->]. rewrite (Hone Hn). apply lookup_insert_eq. }
  eapply wp_mono; [apply (wp_for_each I E) | | done].
  - unfold I. rewrite !count_values_empty. split_and!; try done; try lia.
    intros k. rewrite lookup_empty. split; [by intros [??] | lia].
  - intros i x p w1 [-> Hi]%lookup_seq HI. cbn [Nat.add].
    pose proof HI as (_ & Hk & _ & Ht & Hb & _).
    assert (n = 1%nat → (n `div` 2 = 0)%nat ∧ count_values "vegan" p = 0%nat)
      as Hone by (intros ->; split; [done | lia]).
    assert (p !! (Z.of_nat i + 1) = None) as Hfresh.
    { apply eq_None_not_Some. rewrite Hk. lia. }
    assert (∀ v, is_label v →
      (1 ≤ count_values "vegan" p)%nat → (1 ≤ count_values "non-vegetarian" p)%nat →
      (1 ≤ count_values "vegan" (<[(Z.of_nat i + 1)%Z:=v]> p))%nat ∧
      (1 ≤ count_values "non-vegetarian" (<[(Z.of_nat i + 1)%Z:=v]> p))%nat) as Hkeep.
    { intros v _ ??. rewrite !count_values_insert by done. lia. }
    case_decide as Hhalf.
    { apply wp_bind, wp_random_choice_preferences. intros v w2 Hv Hw2.
      apply wp_ret, (Hins i p v w1); [done..| |]; [lia|].
      intros [??]%Hone. lia. }
    case_decide as Hveg.
    { apply wp_ret, (Hins i p _ w1); [done | done | by left | | done].
      intros Hn _. rewrite !count_values_insert by done.
      assert (1 ≤ n `div` 2)%nat by (apply Nat.div_le_lower_bound; lia).
      repeat case_decide; simplify_eq; lia. }
    case_decide as Hnon.
    { apply wp_ret, (Hins i p _ w1); [done | done | by right | |].
      - intros Hn _. rewrite !count_values_insert by done.
        repeat case_decide; simplify_eq; lia.
      - intros [??]%Hone. lia. }
    apply wp_bind, wp_random_choice_preferences. intros v w2 Hv Hw2.
    apply wp_ret, (Hins i p v w1); [done..| |].
    + intros _ _. apply Hkeep; [done | lia..].
    + intros [??]%Hone. lia.
  - intros p w' (Hh & Hk & Hl & Ht & Hb & Hs). rewrite length_seq in *.
    apply HQ; [|done]. split; [done..| |].
    + intros Hn. apply Hb; [done|]. apply Nat.div_lt; lia.
    + intros Hn. by apply Hs.
Qed.

(** ** The cell eligibility scanner *)

Lemma floor_label_test (cell : ascii) :
  (cell ∉ ["W"; "d"; "k"; "F"]%char) ∧ cell = "K"%char ↔ cell = "K"%char.
Proof.
  split; [by intros [_ ?] | intros ->]. split; [|done].
  rewrite !not_elem_of_cons. split_and!; try done. apply not_elem_of_nil.
Qed.

Lemma valid_position_test_run grid a occupied row col w :
  heap w !! grid = Some a →
  valid_position_test grid occupied row col w
  = if decide (in_bounds a occupied (row, col))
    then (Ret (bool_decide (eligible a occupied (row, col))), w)
    else (Raise IndexError, w).
Proof.
  intros Hg. unfold valid_position_test.
  destruct (decide (in_bounds a occupied (row, col))) as [Hb|Hb];
    destruct (decide ((row, col) ∉ occupied)) as [Hocc|Hocc].
  - destruct (Hb Hocc) as [cell Hcell]. cbn [fst snd] in Hcell.
    unfold bind, ndarray_getitem. rewrite Hg, Hcell. unfold ret. do 2 f_equal.
    apply bool_decide_ext. rewrite floor_label_test. unfold eligible.
    cbn [fst snd]. rewrite Hcell. split; [by intros -> | by intros [_ [= ->]]].
  - unfold ret. do 2 f_equal. symmetry. apply bool_decide_eq_false.
    unfold eligible. tauto.
  - unfold bind, ndarray_getitem. rewrite Hg.
    destruct (ndarray_get a row col) as [cell|] eqn:Hcell; [|done].
    destruct Hb. intros _. cbn [fst snd]. eauto.
  - destruct Hb. by intros ?.
Qed.

Section scan.
Context (grid : loc) (a : ndarray) (occupied : gset (Z * Z)) (w : world).
Hypothesis Hgrid : heap w !! grid = Some a.

Lemma scan_row_run row cols valid :
  for_each cols
    (λ col (valid : list (Z * Z)),
       ok ← valid_position_test grid occupied row col;
       if ok then ret (valid ++ [(row, col)]) else ret valid)
    valid w
  = if decide (Forall (in_bounds a occupied) ((row,.) <$> cols))
    then (Ret (valid ++ filter (eligible a occupied) ((row,.) <$> cols)), w)
    else (Raise IndexError, w).
Proof using Hgrid.
  revert valid. induction cols as [|col cols IH]; intros valid.
  { cbn. by rewrite app_nil_r. }
  cbn [for_each]. unfold bind at 1. unfold bind at 1.
  rewrite (valid_position_test_run grid a) by done.
  rewrite fmap_cons, filter_cons.
  destruct (decide (in_bounds a occupied (row, col))) as [Hb|Hb].
  - case_bool_decide as Hel;
      [rewrite (decide_True (P:=eligible a occupied (row, col))) by done
      |rewrite (decide_False (P:=eligible a occupied (row, col))) by done];
      unfold ret; rewrite IH;
      (destruct (decide (Forall (in_bounds a occupied) ((row,.) <$> cols)))
         as [Hf|Hf];
       [rewrite decide_True by (by constructor); by rewrite <-?app_assoc
       |rewrite decide_False; [done | by intros [_ ?]%Forall_cons]]).
  - rewrite decide_False; [done|]. by intros [? _]%Forall_cons.
Qed.

Lemma scan_rows_run rows cols valid :
  for_each rows
    (λ row valid,
       for_each cols
         (λ col (valid : list (Z * Z)),
            ok ← valid_position_test grid occupied row col;
            if ok then ret (valid ++ [(row, col)]) else ret valid)
         valid)
    valid w
  = if decide (Forall (in_bounds a occupied) (row ← rows; (row,.) <$> cols)%stdpp)
    then (Ret (valid ++ filter (eligible a occupied)
                           (row ← rows; (row,.) <$> cols)%stdpp), w)
    else (Raise IndexError, w).
Proof using Hgrid.
  revert valid. induction rows as [|row rows IH]; intros valid.
  { cbn. by rewrite app_nil_r. }
  cbn [for_each]. unfold bind at 1. rewrite scan_row_run.
  rewrite bind_cons, filter_app.
  destruct (decide (Forall _ ((row,.) <$> cols))) as [Hb|Hb].
  - rewrite IH.
    destruct (decide (Forall _ (rows ≫= _))) as [Hf|Hf].
    + rewrite decide_True by by apply Forall_app. by rewrite app_assoc.
    + rewrite decide_False; [done|]. by intros [_ ?]%Forall_app.
  - rewrite decide_False; [done|]. by intros [? _]%Forall_app.
Qed.

Lemma find_valid_kitchen_positions_run kitchen_rows kitchen_cols :
  find_valid_kitchen_positions grid kitchen_rows kitchen_cols occupied w
  = if decide (readable a kitchen_rows kitchen_cols occupied)
    then (Ret (eligible_cells a kitchen_rows kitchen_cols occupied), w)
    else (Raise IndexError, w).
Proof using Hgrid. apply scan_rows_run. Qed.
End scan.

Lemma elem_of_region kitchen_rows kitchen_cols (row col : Z) :
  (row, col) ∈ region kitchen_rows kitchen_cols ↔
  (start kitchen_rows ≤ row < stop kitchen_rows) ∧
  (start kitchen_cols ≤ col < stop kitchen_cols).
Proof.
  unfold region, range. rewrite list_elem_of_bind. split.
  - intros (r & Hc & Hr). apply list_elem_of_fmap in Hc as (c & [= -> ->] & Hc).
    apply elem_of_seqZ in Hr, Hc. lia.
  - intros [Hr Hc]. exists row. split.
    + apply list_elem_of_fmap. exists col. split; [done|]. apply elem_of_seqZ. lia.
    + apply elem_of_seqZ. lia.
Qed.

Lemma NoDup_region kitchen_rows kitchen_cols :
  NoDup (region kitchen_rows kitchen_cols).
Proof.
  unfold region, range.
  generalize (NoDup_seqZ (start kitchen_cols) (stop kitchen_cols - start kitchen_cols)).
  generalize (seqZ (start kitchen_cols) (stop kitchen_cols - start kitchen_cols)).
  intros cols Hcols.
  generalize (NoDup_seqZ (start kitchen_rows) (stop kitchen_rows - start kitchen_rows)).
  generalize (seqZ (start kitchen_rows) (stop kitchen_rows - start kitchen_rows)).
  intros rows Hrows. induction Hrows as [|row rows Hrow Hrows IH]; [constructor|].
  rewrite bind_cons. apply NoDup_app. split_and!.
  - apply NoDup_fmap_2; [|done]. by intros ?? [= ->].
  - intros [r c] Hc Hr. apply list_elem_of_fmap in Hc as (c' & [= -> ->] & _).
    apply list_elem_of_bind in Hr as (r' & Hc & Hr).
    apply list_elem_of_fmap in Hc as (c'' & [= -> ->] & _). done.
  - done.
Qed.

(** ** Arrays: reading after writing *)

Lemma norm_index_Some n i k :
  norm_index n i = Some k →
  (k < n)%nat ∧ (Z.of_nat k = i ∨ Z.of_nat k = i + Z.of_nat n ∧ i < 0).
Proof.
  unfold norm_index. repeat case_bool_decide; intros [= <-]; lia.
Qed.

Lemma norm_index_nonneg n i k :
  0 ≤ i → norm_index n i = Some k → Z.of_nat k = i.
Proof. intros ? [_ [?|[_ ?]]]%norm_index_Some; [done | lia]. Qed.

Lemma ndarray_get_shape a b r c :
  shape a = shape b → is_Some (ndarray_get a r c) → is_Some (ndarray_get b r c).
Proof.
  unfold shape, ndarray_get. intros Hs.
  assert (length a = length b) as Hlen
    by (rewrite <-(length_fmap length a), Hs; apply length_fmap).
  rewrite Hlen. destruct (norm_index (length b) r) as [i|]; [|by intros [??]].
  cbn. pose proof (f_equal (.!! i) Hs) as Hi. rewrite !list_lookup_fmap in Hi.
  destruct (a !! i) as [row|], (b !! i) as [row'|]; simplify_eq/=;
    [|by intros [??]].
  rewrite Hi. destruct (norm_index (length row') c) as [j|] eqn:Hj;
    [|by intros [??]].
  cbn. intros _. apply lookup_lt_is_Some. by apply norm_index_Some in Hj as [? _].
Qed.

Lemma ndarray_set_shape a r c v a' :
  ndarray_set a r c v = Some a' → shape a' = shape a.
Proof.
  unfold ndarray_set, shape. intros H.
  destruct (norm_index (length a) r) as [i|]; simplify_eq/=.
  destruct (a !! i) as [row|] eqn:Hi; simplify_eq/=.
  destruct (norm_index (length row) c) as [j|]; simplify_eq/=.
  rewrite list_fmap_insert, length_insert.
  apply list_insert_id. by rewrite list_lookup_fmap, Hi.
Qed.

Lemma ndarray_set_is_Some a r c v :
  is_Some (ndarray_get a r c) → is_Some (ndarray_set a r c v).
Proof.
  unfold ndarray_get, ndarray_set. intros [x H].
  destruct (norm_index (length a) r) as [i|]; simplify_eq/=.
  destruct (a !! i) as [row|]; simplify_eq/=.
  destruct (norm_index (length row) c) as [j|]; simplify_eq/=. eauto.
Qed.

Lemma ndarray_get_set_eq a r c v a' :
  ndarray_set a r c v = Some a' → ndarray_get a' r c = Some v.
Proof.
  unfold ndarray_set, ndarray_get. intros H.
  destruct (norm_index (length a) r) as [i|] eqn:Hr; simplify_eq/=.
  destruct (a !! i) as [row|] eqn:Hi; simplify_eq/=.
  destruct (norm_index (length row) c) as [j|] eqn:Hc; simplify_eq/=.
  rewrite length_insert, Hr. cbn.
  rewrite list_lookup_insert_eq by (by eapply lookup_lt_Some). cbn.
  rewrite length_insert, Hc. cbn.
  apply list_lookup_insert_eq. by apply norm_index_Some in Hc as [? _].
Qed.

(** Two coordinates without negative indices address the same cell only when
    they are equal. *)
Lemma ndarray_get_set_ne a r c v a' r' c' :
  ndarray_set a r c v = Some a' →
  0 ≤ r → 0 ≤ c → 0 ≤ r' → 0 ≤ c' → (r, c) ≠ (r', c') →
  ndarray_get a' r' c' = ndarray_get a r' c'.
Proof.
  unfold ndarray_set, ndarray_get. intros H Hr0 Hc0 Hr0' Hc0' Hne.
  destruct (norm_index (length a) r) as [i|] eqn:Hr; simplify_eq/=.
  destruct (a !! i) as [row|] eqn:Hi; simplify_eq/=.
  destruct (norm_index (length row) c) as [j|] eqn:Hc; simplify_eq/=.
  rewrite length_insert.
  destruct (norm_index (length a) r') as [i'|] eqn:Hr'; [|done]. cbn.
  destruct (decide (i = i')) as [<-|Hii].
  - rewrite list_lookup_insert_eq by (by eapply lookup_lt_Some).
    rewrite Hi. cbn. rewrite length_insert.
    destruct (norm_index (length row) c') as [j'|] eqn:Hc'; [|done]. cbn.
    apply list_lookup_insert_ne. intros <-.
    apply norm_index_nonneg in Hr, Hr', Hc, Hc'; [|done..]. congruence.
  - by rewrite list_lookup_insert_ne.
Qed.

Lemma write_all_snoc a l r c v :
  write_all a (l ++ [(r, c, v)]) = (b ← write_all a l; ndarray_set b r c v)%stdpp.
Proof.
  revert a. induction l as [|[[r' c'] v'] l IH]; intros a; cbn.
  - by destruct (ndarray_set a r c v).
  - destruct (ndarray_set a r' c' v'); cbn; [apply IH | done].
Qed.

Lemma write_all_shape a l b : write_all a l = Some b → shape b = shape a.
Proof.
  revert a. induction l as [|[[r c] v] l IH]; intros a H; simplify_eq/=; [done|].
  destruct (ndarray_set a r c v) as [a'|] eqn:Hset; simplify_eq/=.
  rewrite (IH _ H). by eapply ndarray_set_shape.
Qed.

Lemma write_all_other a l b r c :
  write_all a l = Some b →
  Forall (λ x, 0 ≤ x.1.1 ∧ 0 ≤ x.1.2) l → 0 ≤ r → 0 ≤ c →
  (r, c) ∉ fst <$> l →
  ndarray_get b r c = ndarray_get a r c.
Proof.
  revert a. induction l as [|[[r' c'] v'] l IH]; intros a H Hpos Hr Hc Hnin;
    simplify_eq/=; [done|].
  destruct (ndarray_set a r' c' v') as [a'|] eqn:Hset; simplify_eq/=.
  apply Forall_cons in Hpos as [[??] Hpos]. apply not_elem_of_cons in Hnin as [??].
  rewrite (IH a') by done. by eapply ndarray_get_set_ne.
Qed.

Lemma write_all_written a l b r c v :
  write_all a l = Some b →
  Forall (λ x, 0 ≤ x.1.1 ∧ 0 ≤ x.1.2) l → NoDup (fst <$> l) →
  (r, c, v) ∈ l →
  ndarray_get b r c = Some v.
Proof.
  revert a. induction l as [|[[r' c'] v'] l IH]; intros a H Hpos Hnd Hin;
    simplify_eq/=; [by apply elem_of_nil in Hin|].
  destruct (ndarray_set a r' c' v') as [a'|] eqn:Hset; simplify_eq/=.
  apply Forall_cons in Hpos as [[??] Hpos]. apply NoDup_cons in Hnd as [Hnin Hnd].
  apply elem_of_cons in Hin as [[= -> -> ->]|Hin].
  - rewrite (write_all_other a' l b r' c') by done.
    by eapply ndarray_get_set_eq.
  - by apply (IH a').
Qed.

(** ** The placement matcher *)

Lemma wp_ndarray_setitem g r c v w cur cur' E (Q : unit → world → Prop) :
  heap w !! g = Some cur →
  ndarray_set cur r c v = Some cur' →
  (∀ w', heap w' = <[g:=cur']> (heap w) → Q tt w') →
  wp (ndarray_setitem g r c v) w Q E.
Proof.
  intros Hg Hset HQ. unfold wp, ndarray_setitem. rewrite Hg, Hset. by apply HQ.
Qed.

Lemma wp_ndarray_copy grid a w E (Q : loc → world → Prop) :
  heap w !! grid = Some a →
  (∀ w', heap w' = <[fresh (dom (heap w)):=a]> (heap w) →
         Q (fresh (dom (heap w))) w') →
  wp (ndarray_copy grid) w Q E.
Proof.
  intros Hg HQ. unfold wp, ndarray_copy. rewrite Hg. by apply HQ.
Qed.

Lemma wp_place_dishes g valid dishes a0 w E (Q : list dish → world → Prop) :
  heap w !! g = Some a0 →
  Forall (λ rc, is_Some (ndarray_get a0 rc.1 rc.2)) valid →
  (∀ final w',
     write_all a0 (placements valid dishes) = Some final →
     heap w' = <[g:=final]> (heap w) →
     Q (dish_entry <$> placements valid dishes) w') →
  wp (place_dishes g valid dishes) w Q E.
Proof.
  intros Hg Hvalid HQ. unfold place_dishes, enumerate.
  set (P := placements valid dishes).
  pose (I := λ (i : nat) (dp : list dish) (w' : world),
    dp = dish_entry <$> take i P ∧
    ∃ cur, write_all a0 (take i P) = Some cur ∧ heap w' = <[g:=cur]> (heap w)).
  eapply wp_mono; [apply (wp_for_each I E) | | done].
  - split; [done|]. exists a0. split; [done|]. by rewrite insert_id.
  - intros i [i' ch] dp w1 Hi (-> & cur & Hcur & Hw1).
    rewrite list_lookup_imap in Hi.
    destruct (dishes !! i) as [ch'|] eqn:Hch; [|done].
    cbn in Hi. injection Hi as <- <-.
    case_decide as Hlt.
    + destruct (lookup_lt_is_Some_2 valid i Hlt) as [[row col] Hrc].
      assert (P !! i = Some (row, col, ch')) as HP.
      { unfold P, placements. by rewrite lookup_zip_with, Hrc, Hch. }
      apply wp_bind. unfold list_getitem. rewrite Hrc. apply wp_ret.
      destruct (ndarray_set_is_Some cur row col ch') as [cur' Hset].
      { apply (ndarray_get_shape a0); [symmetry; by eapply write_all_shape|].
        apply (proj1 (Forall_forall _ _) Hvalid (row, col)).
        by eapply list_elem_of_lookup_2. }
      apply wp_bind, (wp_ndarray_setitem g row col ch' w1 cur cur').
      { rewrite Hw1. apply lookup_insert_eq. }
      { done. }
      intros w2 Hw2. apply wp_ret. unfold I. rewrite (take_S_r _ _ _ HP). split.
      * by rewrite fmap_app.
      * exists cur'. split.
        -- by rewrite write_all_snoc, Hcur.
        -- by rewrite Hw2, Hw1, insert_insert_eq.
    + apply wp_bind, wp_print. intros w2 Hw2. apply wp_ret. unfold I.
      assert (length P ≤ i)%nat
        by (unfold P, placements; rewrite length_zip_with; lia).
      rewrite (take_ge P (S i)) by lia. rewrite (take_ge P i) in * by lia.
      split; [done|]. exists cur. split; [done | congruence].
  - intros dp w' (-> & final & Hfinal & Hw'). rewrite length_imap in *.
    assert (length P ≤ length dishes)%nat
      by (unfold P, placements; rewrite length_zip_with; lia).
    rewrite take_ge in * by lia. by eapply HQ.
Qed.

(** ** What one call does *)

Lemma wp_generate grid rooms people_positions occupied w kitchen_rows kitchen_cols a :
  rooms !! "K" = Some (kitchen_rows, kitchen_cols) →
  heap w !! grid = Some a →
  wp (generate_dishes_and_preferences grid rooms people_positions occupied) w
    (λ '(g, p, d) w', ∃ valid dishes final,
       generated a kitchen_rows kitchen_cols (length people_positions)
                 occupied w g p d w' valid dishes final)
    (λ _ _, ¬ readable a kitchen_rows kitchen_cols occupied).
Proof.
  intros HK Hgrid. unfold generate_dishes_and_preferences.
  apply wp_bind. unfold dict_getitem. rewrite HK. apply wp_ret.
  apply wp_bind, wp_assign_preferences. intros p w1 Hp Hw1.
  apply wp_bind. unfold wp at 1.
  rewrite (find_valid_kitchen_positions_run grid a) by congruence.
  destruct (decide (readable a kitchen_rows kitchen_cols occupied)) as [Hread|]; [|done].
  set (valid0 := eligible_cells a kitchen_rows kitchen_cols occupied).
  apply wp_bind.
  apply wp_mono with (Q := λ _ w2, heap w2 = heap w)
                     (E := λ _ _, ¬ readable a kitchen_rows kitchen_cols occupied);
    [|clear w1 Hw1|done].
  { case_decide.
    - apply wp_bind, wp_print. intros w2 Hw2. apply wp_print. congruence.
    - by apply wp_ret. }
  intros _ w2 Hw2.
  apply wp_bind, (wp_ndarray_copy grid a); [congruence|].
  rewrite Hw2. set (g := fresh (dom (heap w))). intros w3 Hw3.
  assert (heap w !! g = None) as Hg by apply not_elem_of_dom, is_fresh.
  apply wp_bind, wp_random_shuffle. intros valid w4 Hvalid Hw4.
  apply wp_bind, wp_random_shuffle. intros dishes w5 Hdishes Hw5.
  apply wp_bind, (wp_place_dishes g valid dishes a).
  { rewrite Hw5, Hw4, Hw3. apply lookup_insert_eq. }
  { apply Forall_forall. intros rc Hrc. rewrite Hvalid in Hrc.
    apply list_elem_of_filter in Hrc as [[_ Hrc] _]. by rewrite Hrc. }
  intros final w6 Hfinal Hw6. apply wp_ret.
  exists valid, dishes, final. split; try done.
  by rewrite Hw6, Hw5, Hw4, Hw3, insert_insert_eq.
Qed.

(** A call that returns had a kitchen entry in [rooms] and a live grid. *)
Lemma wp_scan_frame grid kitchen_rows kitchen_cols occupied w :
  wp (find_valid_kitchen_positions grid kitchen_rows kitchen_cols occupied) w
    (λ _ w', heap w' = heap w) (λ _ _, True).
Proof.
  unfold find_valid_kitchen_positions.
  eapply wp_mono;
    [apply (wp_for_each (λ _ _ w', heap w' = heap w) (λ _ _, True)) | done..].
  { done. }
  intros _ row valid w1 _ Hw1.
  eapply wp_mono;
    [apply (wp_for_each (λ _ _ w', heap w' = heap w) (λ _ _, True)) | done..].
  { done. }
  intros _ col valid' w2 _ Hw2. apply wp_bind. unfold valid_position_test.
  case_decide; [|by apply wp_ret, wp_ret].
  apply wp_bind. unfold wp at 1, ndarray_getitem.
  destruct (heap w2 !! grid) as [a|]; [|done].
  destruct (ndarray_get a row col); [|done].
  apply wp_ret. case_bool_decide; by apply wp_ret.
Qed.

Lemma generate_ret_inputs grid rooms people_positions occupied w r w' :
  generate_dishes_and_preferences grid rooms people_positions occupied w
    = (Ret r, w') →
  ∃ kitchen_rows kitchen_cols a,
    rooms !! "K" = Some (kitchen_rows, kitchen_cols) ∧ heap w !! grid = Some a.
Proof.
  intros Hrun.
  destruct (rooms !! "K") as [[kitchen_rows kitchen_cols]|] eqn:HK; last first.
  { unfold generate_dishes_and_preferences in Hrun. unfold bind at 1 in Hrun.
    unfold dict_getitem in Hrun. by rewrite HK in Hrun. }
  destruct (heap w !! grid) as [a|] eqn:Hgrid; [by eauto|]. exfalso.
  refine (wp_run _ w (λ _ _, False) (λ _ _, True) r w' _ Hrun).
  unfold generate_dishes_and_preferences.
  apply wp_bind. unfold dict_getitem. rewrite HK. apply wp_ret.
  apply wp_bind, wp_assign_preferences. intros p w1 _ Hw1.
  apply wp_bind. eapply wp_mono; [apply wp_scan_frame | | done].
  intros valid w2 Hw2. apply wp_bind.
  apply wp_mono with (Q := λ _ w3, heap w3 = heap w) (E := λ _ _, True);
    [| |done].
  { case_decide.
    - apply wp_bind, wp_print. intros w3 Hw3. apply wp_print. congruence.
    - apply wp_ret. congruence. }
  intros _ w3 Hw3. apply wp_bind. unfold wp at 1, ndarray_copy.
  by rewrite Hw3, Hgrid.
Qed.

Lemma generate_returns grid rooms people_positions occupied w
    kitchen_rows kitchen_cols a g p d w' :
  rooms !! "K" = Some (kitchen_rows, kitchen_cols) →
  heap w !! grid = Some a →
  generate_dishes_and_preferences grid rooms people_positions occupied w
    = (Ret (g, p, d), w') →
  ∃ valid dishes final,
    generated a kitchen_rows kitchen_cols (length people_positions)
              occupied w g p d w' valid dishes final.
Proof.
  intros HK Hgrid Hrun.
  by apply (wp_run _ _ _ _ _ _
              (wp_generate grid rooms people_positions occupied w _ _ a HK Hgrid)
              Hrun).
Qed.

Lemma generate_total grid rooms people_positions occupied w
    kitchen_rows kitchen_cols a :
  rooms !! "K" = Some (kitchen_rows, kitchen_cols) →
  heap w !! grid = Some a →
  readable a kitchen_rows kitchen_cols occupied →
  ∃ g p d w',
    generate_dishes_and_preferences grid rooms people_positions occupied w
      = (Ret (g, p, d), w').
Proof.
  intros HK Hgrid Hread.
  pose proof (wp_generate grid rooms people_positions occupied w _ _ a HK Hgrid)
    as Hwp.
  unfold wp in Hwp.
  destruct (generate_dishes_and_preferences _ _ _ _ w) as [[[[g p] d]|e] w'];
    [by eauto | done].
Qed.

(** ** Lists of placements *)

Lemma placements_cells valid dishes :
  fst <$> placements valid dishes = take (length dishes) valid.
Proof.
  unfold placements. revert dishes.
  induction valid as [|[r c] valid IH]; intros [|ch dishes]; cbn; try done.
  by rewrite IH.
Qed.

Lemma placements_dishes valid dishes :
  snd <$> placements valid dishes = take (length valid) dishes.
Proof.
  unfold placements. revert dishes.
  induction valid as [|[r c] valid IH]; intros [|ch dishes]; cbn; try done.
  by rewrite IH.
Qed.

Lemma length_placements valid dishes :
  length (placements valid dishes) = (length valid `min` length dishes)%nat.
Proof. apply length_zip_with. Qed.

Lemma NoDup_take {A} (l : list A) n : NoDup l → NoDup (take n l).
Proof. intros Hl. eapply sublist_NoDup; [done | apply sublist_take]. Qed.

Lemma length_filter_take {A} (P : A → Prop) `{!∀ x, Decision (P x)} (l : list A) n :
  (length (filter P (take n l)) ≤ length (filter P l))%nat.
Proof.
  rewrite <-(take_drop n l) at 2. rewrite filter_app, length_app. lia.
Qed.

Lemma length_filter_replicate {A} (P : A → Prop) `{!∀ x, Decision (P x)} n (x : A) :
  length (filter P (replicate n x)) = if decide (P x) then n else 0%nat.
Proof.
  induction n as [|n IH]; cbn [replicate]; [by case_decide|].
  rewrite filter_cons. repeat case_decide; cbn [length]; by rewrite ?IH.
Qed.

Lemma length_filter_partition {A} (P Q : A → Prop)
    `{!∀ x, Decision (P x), !∀ x, Decision (Q x)} (l : list A) :
  Forall (λ x, P x ∨ Q x) l → (∀ x, P x → Q x → False) →
  (length (filter P l) + length (filter Q l) = length l)%nat.
Proof.
  intros Hl Hdisj. induction Hl as [|x l Hx Hl IH]; [done|].
  rewrite !filter_cons.
  destruct (decide (P x)), (decide (Q x)); cbn; try lia.
  - by destruct (Hdisj x).
  - by destruct Hx.
Qed.

(** The shuffled dish characters hold as many ['V'] as there are vegans, and
    everything else is an ['N']. *)
Lemma dishes_count (vegan_count non_veg_count : nat) (dishes : list ascii) :
  dishes ≡ₚ replicate vegan_count "V"%char ++ replicate non_veg_count "N"%char →
  length (filter (λ ch, dish_type_name ch = "vegan") dishes) = vegan_count ∧
  length (filter (λ ch, dish_type_name ch = "non-vegetarian") dishes) = non_veg_count.
Proof.
  intros ->. rewrite !filter_app, !length_app, !length_filter_replicate.
  unfold dish_type_name. repeat case_decide; simplify_eq; split; lia.
Qed.

Lemma find_dishes_by_type_count valid dishes label :
  length (find_dishes_by_type (dish_entry <$> placements valid dishes) label)
  = length (filter (λ ch, dish_type_name ch = label) (take (length valid) dishes)).
Proof.
  unfold find_dishes_by_type. rewrite length_fmap, <-placements_dishes.
  induction (placements valid dishes) as [|[[r c] ch] l IH]; [done|].
  rewrite !fmap_cons, !filter_cons. cbn [dish_entry snd fst].
  case_decide; cbn; by rewrite IH.
Qed.

(** A rectangular grid and a region inside it: the scan raises nothing. *)
Lemma readable_inside (a : ndarray) (ncols : nat) kitchen_rows kitchen_cols occupied :
  Forall (λ row, length row = ncols) a →
  0 ≤ start kitchen_rows → stop kitchen_rows ≤ Z.of_nat (length a) →
  0 ≤ start kitchen_cols → stop kitchen_cols ≤ Z.of_nat ncols →
  readable a kitchen_rows kitchen_cols occupied.
Proof.
  intros Hrect Hr0 Hr1 Hc0 Hc1. apply Forall_forall. intros [r c] Hrc _.
  apply elem_of_region in Hrc as [Hr Hc]. cbn [fst snd].
  unfold ndarray_get, norm_index.
  rewrite (bool_decide_eq_false_2 (r < 0)) by lia.
  rewrite (bool_decide_eq_true_2 (0 ≤ r < _)) by lia. cbn.
  destruct (lookup_lt_is_Some_2 a (Z.to_nat r)) as [row Hrow]; [lia|].
  rewrite Hrow. cbn.
  rewrite (proj1 (Forall_forall _ _) Hrect row) by by eapply list_elem_of_lookup_2.
  rewrite (bool_decide_eq_false_2 (c < 0)) by lia.
  rewrite (bool_decide_eq_true_2 (0 ≤ c < _)) by lia. cbn.
  apply lookup_lt_is_Some.
  rewrite (proj1 (Forall_forall _ _) Hrect row) by by eapply list_elem_of_lookup_2.
  lia.
Qed.

Lemma NoDup_eligible_cells a kitchen_rows kitchen_cols occupied :
  NoDup (eligible_cells a kitchen_rows kitchen_cols occupied).
Proof. apply NoDup_filter, NoDup_region. Qed.

Lemma elem_of_placements valid dishes r c ch :
  (r, c, ch) ∈ placements valid dishes → (r, c) ∈ valid ∧ ch ∈ dishes.
Proof.
  unfold placements. intros ([r' c'] & ch' & [= -> -> ->] & ? & ?)%elem_of_zip_with.
  done.
Qed.

Lemma elem_of_dish_list valid dishes r c t :
  (r, c, t) ∈ dish_entry <$> placements valid dishes ↔
  ∃ ch, t = dish_type_name ch ∧ (r, c, ch) ∈ placements valid dishes.
Proof.
  rewrite list_elem_of_fmap. split.
  - intros ([[r' c'] ch] & [= -> -> ->] & Hin). eauto.
  - intros (ch & -> & Hin). by exists (r, c, ch).
Qed.

Lemma dish_list_cells (l : list (Z * Z * ascii)) :
  (λ x : dish, (x.1.1, x.1.2)) <$> (dish_entry <$> l) = fst <$> l.
Proof. induction l as [|[[r c] ch] l IH]; [done|]. cbn. by f_equal. Qed.

(** ** The worked examples, run *)

Lemma example_run :
  generate_dishes_and_preferences 1%positive Examples.rooms Examples.people ∅
    Examples.world0
  = (Ret (Examples.out.1.1.1, Examples.out.1.1.2, Examples.out.1.2), Examples.out.2).
Proof. vm_compute. reflexivity. Qed.

(** Three eligible cells for five people: three dishes placed, the shortage
    reported on standard output, no exception. *)
Example crowd_scenario :
  generate_dishes_and_preferences 1%positive Examples.rooms Examples.crowd
    Examples.occupied Examples.world0
  = (Ret (Examples.out_crowd.1.1.1, Examples.out_crowd.1.1.2, Examples.out_crowd.1.2),
     Examples.out_crowd.2) ∧
  length (eligible_cells Examples.grid (Slice 0 2) (Slice 0 3) Examples.occupied)
  = 3%nat ∧
  length Examples.out_crowd.1.2 = 3%nat ∧
  stdout Examples.out_crowd.2 =
    ["Warning: Only 3 valid positions found in kitchen for 5 dishes";
     "Some dishes may not be placed or may overlap";
     "Could not place dish 4 - no more valid positions";
     "Could not place dish 5 - no more valid positions"].
Proof. vm_compute. done. Qed.

(** Nobody at home: nothing assigned, nothing placed, the copy equals the
    input. *)
Example empty_scenario :
  generate_dishes_and_preferences 1%positive Examples.rooms [] ∅ Examples.world0
  = (Ret (2%positive, ∅, []),
     World {[1%positive := Examples.grid; 2%positive := Examples.grid]}
           [2; 1; 3; 0; 1]%nat []).
Proof. vm_compute. reflexivity. Qed.

(** Four people and exactly four free floor cells: four dishes on those
    cells, both labels present. *)
(** Four people and exactly four free floor cells: four dishes on those
    cells, both labels present. *)
Example full_scenario :
  let r := Examples.returned
             (generate_dishes_and_preferences 1%positive Examples.rooms
                [(5, 5); (6, 6); (7, 7); (8, 8)] ∅ Examples.world0) in
  (λ x : dish, x.1) <$> r.1.2 = [(0, 1); (1, 2); (0, 2); (1, 0)] ∧
  (λ k : Z, r.1.1.2 !! k) <$> [1; 2; 3; 4]
  = [Some "non-vegetarian"; Some "non-vegetarian"; Some "vegan"; Some "vegan"].
Proof. vm_compute. done. Qed.


(** ** The properties of the design document *)

(** C1. With at least two occupants, the preference map a call returns holds
    both labels, ['vegan'] and ['non-vegetarian'], whatever the random
    generator delivers. *)
Theorem both_labels_present grid rooms people_positions occupied w g p d w' :
  (2 ≤ length people_positions)%nat →
  generate_dishes_and_preferences grid rooms people_positions occupied w
    = (Ret (g, p, d), w') →
  (∃ k : Z, p !! k = Some "vegan") ∧ (∃ k : Z, p !! k = Some "non-vegetarian").
Proof.
  intros Hn Hrun.
  destruct (generate_ret_inputs _ _ _ _ _ _ _ Hrun) as (kr & kc & a & HK & Hgrid).
  destruct (generate_returns _ _ _ _ _ _ _ _ _ _ _ _ HK Hgrid Hrun)
    as (valid & dishes & final & Hgen).
  destruct (alloc_both _ _ (gen_prefs _ _ _ _ _ _ _ _ _ _ _ _ _ Hgen) Hn).
  split; by apply count_values_pos.
Qed.

Lemma both_labels_present_witness :
  (∃ k : Z, Examples.out.1.1.2 !! k = Some "vegan") ∧
  (∃ k : Z, Examples.out.1.1.2 !! k = Some "non-vegetarian").
Proof.
  apply (both_labels_present 1%positive Examples.rooms Examples.people ∅
           Examples.world0 Examples.out.1.1.1 Examples.out.1.1.2
           Examples.out.1.2 Examples.out.2).
  - cbn. lia.
  - vm_compute. reflexivity.
Defined.

(** C2. Every coordinate of the dish placement list lies within the kitchen
    region's half-open row and column ranges, is not in [occupied_positions],
    and carries the kitchen-floor label ['K'] in the input grid. *)
Theorem dishes_on_eligible_cells grid rooms people_positions occupied w
    kitchen_rows kitchen_cols a g p d w' :
  rooms !! "K" = Some (kitchen_rows, kitchen_cols) →
  heap w !! grid = Some a →
  generate_dishes_and_preferences grid rooms people_positions occupied w
    = (Ret (g, p, d), w') →
  ∀ row col t, (row, col, t) ∈ d →
    start kitchen_rows ≤ row < stop kitchen_rows ∧
    start kitchen_cols ≤ col < stop kitchen_cols ∧
    ((row, col) ∉ occupied) ∧
    ndarray_get a row col = Some "K"%char.
Proof.
  intros HK Hgrid Hrun row col t Hin.
  destruct (generate_returns _ _ _ _ _ _ _ _ _ _ _ _ HK Hgrid Hrun)
    as (valid & dishes & final & [_ _ Hvalid _ -> _ _ _]).
  apply elem_of_dish_list in Hin as (ch & _ & Hin).
  apply elem_of_placements in Hin as [Hin _]. rewrite Hvalid in Hin.
  apply list_elem_of_filter in Hin as [[Hocc Hcell] Hreg].
  apply elem_of_region in Hreg as [??]. done.
Qed.

Lemma dishes_on_eligible_cells_witness :
  0 ≤ 1 < 2 ∧ 0 ≤ 2 < 3 ∧ ((1, 2) ∉ (∅ : gset (Z * Z))) ∧
  ndarray_get Examples.grid 1 2 = Some "K"%char.
Proof.
  apply (dishes_on_eligible_cells 1%positive Examples.rooms Examples.people ∅
           Examples.world0 (Slice 0 2) (Slice 0 3) Examples.grid
           Examples.out.1.1.1 Examples.out.1.1.2 Examples.out.1.2 Examples.out.2
           eq_refl eq_refl) with (t := "non-vegetarian").
  - vm_compute. reflexivity.
  - vm_compute. left.
Defined.

(** C3. The dish placement list has [min M N] entries, for [M] eligible
    cells and [N] occupants; and a call whose scan stays inside the grid
    returns, also when [M < N]. *)
Theorem dish_count_min grid rooms people_positions occupied w
    kitchen_rows kitchen_cols a :
  rooms !! "K" = Some (kitchen_rows, kitchen_cols) →
  heap w !! grid = Some a →
  let M := length (eligible_cells a kitchen_rows kitchen_cols occupied) in
  let N := length people_positions in
  (∀ g p d w',
     generate_dishes_and_preferences grid rooms people_positions occupied w
       = (Ret (g, p, d), w') →
     length d = (M `min` N)%nat) ∧
  (readable a kitchen_rows kitchen_cols occupied →
   ∃ g p d w',
     generate_dishes_and_preferences grid rooms people_positions occupied w
       = (Ret (g, p, d), w') ∧
     length d = (M `min` N)%nat).
Proof.
  intros HK Hgrid M N.
  assert (∀ g p d w',
     generate_dishes_and_preferences grid rooms people_positions occupied w
       = (Ret (g, p, d), w') →
     length d = (M `min` N)%nat) as Hlen.
  { intros g p d w' Hrun.
    destruct (generate_returns _ _ _ _ _ _ _ _ _ _ _ _ HK Hgrid Hrun)
      as (valid & dishes & final & [Hp _ Hvalid Hdishes -> _ _ _]).
    rewrite length_fmap, length_placements, Hvalid, Hdishes.
    rewrite length_app, !length_replicate. by rewrite (alloc_total _ _ Hp). }
  split; [done|]. intros Hread.
  destruct (generate_total grid rooms people_positions occupied w _ _ a
              HK Hgrid Hread) as (g & p & d & w' & Hrun).
  exists g, p, d, w'. split; [done|]. by eapply Hlen.
Qed.

Lemma dish_count_min_witness :
  ∃ g p d w',
    generate_dishes_and_preferences 1%positive Examples.rooms Examples.crowd
      Examples.occupied Examples.world0 = (Ret (g, p, d), w') ∧
    length d = 3%nat.
Proof.
  apply (dish_count_min 1%positive Examples.rooms Examples.crowd
           Examples.occupied Examples.world0 (Slice 0 2) (Slice 0 3)
           Examples.grid).
  - reflexivity.
  - reflexivity.
  - apply (readable_inside _ 3); [|cbn; lia..].
    repeat constructor.
Defined.

(** C4, as the code has it.  The input grid object is never written: the
    call allocates a new array and changes nothing else in the store.  When
    the kitchen region starts at row and column indices that are not negative,
    the new array equals the input grid at every cell outside the dish
    placement list, and at each placed coordinate it bears the dish character
    of the list entry. *)
Theorem grid_copy_frame grid rooms people_positions occupied w
    kitchen_rows kitchen_cols a g p d w' :
  rooms !! "K" = Some (kitchen_rows, kitchen_cols) →
  heap w !! grid = Some a →
  generate_dishes_and_preferences grid rooms people_positions occupied w
    = (Ret (g, p, d), w') →
  heap w' !! grid = Some a ∧
  heap w !! g = None ∧
  (∀ l, l ≠ g → heap w' !! l = heap w !! l) ∧
  ∃ final, heap w' !! g = Some final ∧
    (0 ≤ start kitchen_rows → 0 ≤ start kitchen_cols →
     differs_only_at a final d ∧ bears_dishes final d).
Proof.
  intros HK Hgrid Hrun.
  destruct (generate_returns _ _ _ _ _ _ _ _ _ _ _ _ HK Hgrid Hrun)
    as (valid & dishes & final & [_ _ Hvalid Hdishes -> Hfresh Hfinal Hheap]).
  assert (g ≠ grid) as Hne by congruence.
  split_and!.
  - by rewrite Hheap, lookup_insert_ne.
  - done.
  - intros l Hl. by rewrite Hheap, lookup_insert_ne.
  - exists final. split; [by rewrite Hheap, lookup_insert_eq|].
    intros Hr0 Hc0.
    assert (∀ r c, (r, c) ∈ valid → 0 ≤ r ∧ 0 ≤ c) as Hpos.
    { intros r c Hin. rewrite Hvalid in Hin.
      apply list_elem_of_filter in Hin as [_ [??]%elem_of_region]. lia. }
    assert (Forall (λ x, 0 ≤ x.1.1 ∧ 0 ≤ x.1.2) (placements valid dishes)) as HP.
    { apply Forall_forall. intros [[r c] ch] [Hin _]%elem_of_placements.
      by apply Hpos. }
    split.
    + intros r c Hr Hc Hnot. apply (write_all_other _ _ _ _ _ Hfinal HP Hr Hc).
      intros ([[r' c'] ch] & [= <- <-] & Hin)%list_elem_of_fmap.
      apply (Hnot (dish_type_name ch)), elem_of_dish_list. eauto.
    + intros r c t (ch & -> & Hin)%elem_of_dish_list.
      assert (dish_char (dish_type_name ch) = ch) as ->.
      { apply elem_of_placements in Hin as [_ Hch]. rewrite Hdishes in Hch.
        apply elem_of_app in Hch as [[-> _]%elem_of_replicate|[-> _]%elem_of_replicate];
          done. }
      apply (write_all_written _ _ _ _ _ _ Hfinal HP); [|done].
      rewrite placements_cells. apply NoDup_take. rewrite Hvalid.
      apply NoDup_eligible_cells.
Qed.

Lemma grid_copy_frame_witness :
  heap Examples.out.2 !! 1%positive = Some Examples.grid ∧
  heap Examples.world0 !! Examples.out.1.1.1 = None ∧
  (∀ l, l ≠ Examples.out.1.1.1 →
        heap Examples.out.2 !! l = heap Examples.world0 !! l) ∧
  ∃ final, heap Examples.out.2 !! Examples.out.1.1.1 = Some final ∧
    (0 ≤ 0 → 0 ≤ 0 →
     differs_only_at Examples.grid final Examples.out.1.2 ∧
     bears_dishes final Examples.out.1.2).
Proof.
  apply (grid_copy_frame 1%positive Examples.rooms Examples.people ∅
           Examples.world0 (Slice 0 2) (Slice 0 3) Examples.grid
           Examples.out.1.1.1 Examples.out.1.1.2 Examples.out.1.2 Examples.out.2).
  - reflexivity.
  - reflexivity.
  - vm_compute. reflexivity.
Defined.

(** C4 as stated fails when two coordinates of the region address one cell:
    over a grid of two rows, the rows -1 and 1 of the region are the same row,
    both coordinates are placed, and the second write replaces the first. *)
Lemma wrapping_region_overwrites :
  ∃ g p d w' final,
    generate_dishes_and_preferences 1%positive Examples.wrapping_rooms
      Examples.couple ∅ Examples.narrow_world = (Ret (g, p, d), w') ∧
    heap w' !! g = Some final ∧
    ¬ bears_dishes final d.
Proof.
  exists 2%positive, {[1 := "vegan"; 2 := "non-vegetarian"]},
    [(1, 0, "non-vegetarian"); (-1, 0, "vegan")],
    (World {[1%positive := Examples.narrow_grid;
             2%positive := [["W"]; ["V"]]%char]} [] []),
    [["W"]; ["V"]]%char.
  split_and!.
  - vm_compute. reflexivity.
  - reflexivity.
  - intros H. specialize (H 1 0 "non-vegetarian"). 
    assert (ndarray_get [["W"]; ["V"]]%char 1 0 = Some (dish_char "non-vegetarian"))
      as Hbad by (apply H; left).
    vm_compute in Hbad. discriminate.
Qed.

(** C5. The coordinates of the dish placement list are pairwise distinct,
    whatever the shuffles deliver. *)
Theorem dish_coordinates_distinct grid rooms people_positions occupied w g p d w' :
  generate_dishes_and_preferences grid rooms people_positions occupied w
    = (Ret (g, p, d), w') →
  NoDup ((λ x : dish, (x.1.1, x.1.2)) <$> d).
Proof.
  intros Hrun.
  destruct (generate_ret_inputs _ _ _ _ _ _ _ Hrun) as (kr & kc & a & HK & Hgrid).
  destruct (generate_returns _ _ _ _ _ _ _ _ _ _ _ _ HK Hgrid Hrun)
    as (valid & dishes & final & [_ _ Hvalid _ -> _ _ _]).
  rewrite dish_list_cells, placements_cells. apply NoDup_take. rewrite Hvalid.
  apply NoDup_eligible_cells.
Qed.

Lemma dish_coordinates_distinct_witness :
  NoDup ((λ x : dish, (x.1.1, x.1.2)) <$> Examples.out.1.2).
Proof.
  apply (dish_coordinates_distinct 1%positive Examples.rooms Examples.people ∅
           Examples.world0 Examples.out.1.1.1 Examples.out.1.1.2
           Examples.out.1.2 Examples.out.2).
  vm_compute. reflexivity.
Defined.

(** C6. The dish placement list holds at most as many ['vegan'] entries as
    the preference map holds ['vegan'] values, and exactly as many when there
    are at least as many eligible cells as occupants; the same for
    ['non-vegetarian']. *)
Theorem dish_counts_bounded grid rooms people_positions occupied w
    kitchen_rows kitchen_cols a g p d w' :
  rooms !! "K" = Some (kitchen_rows, kitchen_cols) →
  heap w !! grid = Some a →
  generate_dishes_and_preferences grid rooms people_positions occupied w
    = (Ret (g, p, d), w') →
  let M := length (eligible_cells a kitchen_rows kitchen_cols occupied) in
  let N := length people_positions in
  (length (find_dishes_by_type d "vegan") ≤ count_values "vegan" p)%nat ∧
  (length (find_dishes_by_type d "non-vegetarian")
     ≤ count_values "non-vegetarian" p)%nat ∧
  ((N ≤ M)%nat →
   length (find_dishes_by_type d "vegan") = count_values "vegan" p ∧
   length (find_dishes_by_type d "non-vegetarian")
     = count_values "non-vegetarian" p).
Proof.
  intros HK Hgrid Hrun M N.
  destruct (generate_returns _ _ _ _ _ _ _ _ _ _ _ _ HK Hgrid Hrun)
    as (valid & dishes & final & [Hp _ Hvalid Hdishes -> _ _ _]).
  destruct (dishes_count _ _ _ Hdishes) as [Hveg Hnon].
  rewrite !find_dishes_by_type_count. split_and!.
  - etrans; [apply length_filter_take | by rewrite Hveg].
  - etrans; [apply length_filter_take | by rewrite Hnon].
  - intros HNM. rewrite take_ge; [by rewrite Hveg, Hnon|].
    rewrite Hdishes, length_app, !length_replicate, (alloc_total _ _ Hp).
    by rewrite Hvalid.
Qed.

Lemma dish_counts_bounded_witness :
  (length (find_dishes_by_type Examples.out.1.2 "vegan")
     ≤ count_values "vegan" Examples.out.1.1.2)%nat ∧
  (length (find_dishes_by_type Examples.out.1.2 "non-vegetarian")
     ≤ count_values "non-vegetarian" Examples.out.1.1.2)%nat ∧
  ((length Examples.people
      ≤ length (eligible_cells Examples.grid (Slice 0 2) (Slice 0 3) ∅))%nat →
   length (find_dishes_by_type Examples.out.1.2 "vegan")
     = count_values "vegan" Examples.out.1.1.2 ∧
   length (find_dishes_by_type Examples.out.1.2 "non-vegetarian")
     = count_values "non-vegetarian" Examples.out.1.1.2).
Proof.
  apply (dish_counts_bounded 1%positive Examples.rooms Examples.people ∅
           Examples.world0 (Slice 0 2) (Slice 0 3) Examples.grid
           Examples.out.1.1.1 Examples.out.1.1.2 Examples.out.1.2 Examples.out.2).
  - reflexivity.
  - reflexivity.
  - vm_compute. reflexivity.
Defined.

(** C7. The key set of the returned preference map is exactly {1, ..., N}
    (empty when N = 0), and every key is mapped to ['vegan'] or to
    ['non-vegetarian']. *)
Theorem preference_keys grid rooms people_positions occupied w g p d w' :
  generate_dishes_and_preferences grid rooms people_positions occupied w
    = (Ret (g, p, d), w') →
  let N := length people_positions in
  dom p = list_to_set (seqZ 1 (Z.of_nat N)) ∧
  (∀ k : Z, 1 ≤ k ≤ Z.of_nat N →
     p !! k = Some "vegan" ∨ p !! k = Some "non-vegetarian") ∧
  (N = 0%nat → p = ∅).
Proof.
  intros Hrun N.
  destruct (generate_ret_inputs _ _ _ _ _ _ _ Hrun) as (kr & kc & a & HK & Hgrid).
  destruct (generate_returns _ _ _ _ _ _ _ _ _ _ _ _ HK Hgrid Hrun)
    as (valid & dishes & final & [[Hkeys Hlabels _ _ _] _ _ _ _ _ _ _]).
  split_and!.
  - apply set_eq. intros k.
    rewrite elem_of_dom, Hkeys, elem_of_list_to_set, elem_of_seqZ. lia.
  - intros k Hk. apply Hkeys in Hk as [v Hv].
    destruct (Hlabels k v Hv) as [-> | ->]; auto.
  - intros HN. apply map_empty. intros k. apply eq_None_not_Some.
    rewrite Hkeys. fold N. lia.
Qed.

Lemma preference_keys_witness :
  dom Examples.out.1.1.2 = list_to_set (seqZ 1 3) ∧
  (∀ k : Z, 1 ≤ k ≤ 3 →
     Examples.out.1.1.2 !! k = Some "vegan" ∨
     Examples.out.1.1.2 !! k = Some "non-vegetarian") ∧
  (3%nat = 0%nat → Examples.out.1.1.2 = ∅).
Proof.
  apply (preference_keys 1%positive Examples.rooms Examples.people ∅
           Examples.world0 Examples.out.1.1.1 Examples.out.1.1.2
           Examples.out.1.2 Examples.out.2).
  vm_compute. reflexivity.
Defined.

(** C8, as the code has it.  With a single occupant the first-half test
    [0 < 1 // 2] fails, both running counts are zero, and the branch for a
    zero vegan count is taken first: person 1 is ['vegan'] whatever the random
    generator delivers. *)
Theorem single_occupant_vegan grid rooms people_positions occupied w g p d w' :
  length people_positions = 1%nat →
  generate_dishes_and_preferences grid rooms people_positions occupied w
    = (Ret (g, p, d), w') →
  p = {[1 := "vegan"]}.
Proof.
  intros Hn Hrun.
  destruct (generate_ret_inputs _ _ _ _ _ _ _ Hrun) as (kr & kc & a & HK & Hgrid).
  destruct (generate_returns _ _ _ _ _ _ _ _ _ _ _ _ HK Hgrid Hrun)
    as (valid & dishes & final & [[Hkeys _ _ _ Hone] _ _ _ _ _ _ _]).
  apply map_eq. intros k. destruct (decide (k = 1)) as [->|Hk].
  - rewrite lookup_singleton_eq. by apply Hone.
  - rewrite lookup_singleton_ne by done. apply eq_None_not_Some.
    rewrite Hkeys, Hn. lia.
Qed.

Lemma single_occupant_vegan_witness :
  Examples.out_single.1.1.2 = {[1 := "vegan"]}.
Proof.
  apply (single_occupant_vegan 1%positive Examples.rooms Examples.single ∅
           Examples.world0 Examples.out_single.1.1.1 Examples.out_single.1.1.2
           Examples.out_single.1.2 Examples.out_single.2).
  - reflexivity.
  - vm_compute. reflexivity.
Defined.

(** C8 as stated fails: the single occupant of the worked example is
    ['vegan'], and no call and no outcome of the random choices gives a single
    occupant the label ['non-vegetarian']. *)
Lemma single_occupant_never_non_vegetarian :
  Examples.out_single.1.1.2 !! 1 = Some "vegan" ∧
  ¬ ∃ grid rooms people_positions occupied w g (p : prefs) d w',
      length people_positions = 1%nat ∧
      generate_dishes_and_preferences grid rooms people_positions occupied w
        = (Ret (g, p, d), w') ∧
      p !! 1 = Some "non-vegetarian".
Proof.
  split; [done|].
  intros (grid & rooms & people & occupied & w & g & p & d & w' & Hn & Hrun & Hp).
  destruct (generate_ret_inputs _ _ _ _ _ _ _ Hrun) as (kr & kc & a & HK & Hgrid).
  destruct (generate_returns _ _ _ _ _ _ _ _ _ _ _ _ HK Hgrid Hrun)
    as (valid & dishes & final & [[_ _ _ _ Hone] _ _ _ _ _ _ _]).
  rewrite (Hone Hn) in Hp. discriminate.
Qed.

(** C9. [get_person_dietary_preference] returns the stored preference for a
    person number that is a key of the map and ['unknown'] for one that is
    not; being a total function, it raises nothing. *)
Theorem get_person_dietary_preference_spec (person_number : Z) (person_preferences : prefs) :
  (∀ v, person_preferences !! person_number = Some v →
        get_person_dietary_preference person_number person_preferences = v) ∧
  (person_preferences !! person_number = None →
   get_person_dietary_preference person_number person_preferences = "unknown").
Proof.
  unfold get_person_dietary_preference. split.
  - by intros v ->.
  - by intros ->.
Qed.

Lemma get_person_dietary_preference_spec_witness :
  get_person_dietary_preference 2 {[1 := "vegan"; 2 := "non-vegetarian"]}
    = "non-vegetarian" ∧
  get_person_dietary_preference 7 {[1 := "vegan"; 2 := "non-vegetarian"]}
    = "unknown".
Proof.
  split.
  - apply (get_person_dietary_preference_spec 2
             {[1 := "vegan"; 2 := "non-vegetarian"]}). reflexivity.
  - apply (get_person_dietary_preference_spec 7
             {[1 := "vegan"; 2 := "non-vegetarian"]}). reflexivity.
Defined.

(** C10. Over a preference map and a dish placement list that hold only the
    two labels, the summary partitions both: the two people counts add up to
    [total_people], the number of map entries, and the two dish counts add
    up to the length of the dish placement list. *)
Theorem summary_partitions (person_preferences : prefs) (dish_positions : list dish) :
  (∀ (k : Z) v, person_preferences !! k = Some v → is_label v) →
  Forall (λ x : dish, is_label x.2) dish_positions →
  let s := get_dish_assignment_summary person_preferences dish_positions in
  (vegan_people_count s + non_vegetarian_people_count s = total_people s)%nat ∧
  total_people s = size person_preferences ∧
  (vegan_dishes_count s + non_vegetarian_dishes_count s
     = length dish_positions)%nat.
Proof.
  intros Hp Hd s. cbn. unfold people_with, find_dishes_by_type.
  rewrite !length_fmap. split_and!; [|done|].
  - rewrite <-length_map_to_list. apply length_filter_partition.
    + apply Forall_forall. intros [k v] Hkv%elem_of_map_to_list. by apply (Hp k).
    + by intros [k v] -> [=].
  - apply length_filter_partition; [done|]. by intros [[r c] t] -> [=].
Qed.

Lemma summary_partitions_witness :
  let s := get_dish_assignment_summary Examples.out.1.1.2 Examples.out_crowd.1.2 in
  (vegan_people_count s + non_vegetarian_people_count s = total_people s)%nat ∧
  total_people s = size Examples.out.1.1.2 ∧
  (vegan_dishes_count s + non_vegetarian_dishes_count s
     = length Examples.out_crowd.1.2)%nat.
Proof.
  apply (summary_partitions Examples.out.1.1.2 Examples.out_crowd.1.2).
  - apply (bool_decide_unpack (map_Forall (λ _ v, is_label v) Examples.out.1.1.2)).
    vm_compute. exact I.
  - apply (bool_decide_unpack (Forall (λ x : dish, is_label x.2) Examples.out_crowd.1.2)).
    vm_compute. exact I.
Defined.

(** * Further properties of the code *)

(** ** Two passes over one run *)

Lemma wp_conj {A} (m : Py A) w (Q1 Q2 : A → world → Prop)
    (E1 E2 : exn → world → Prop) :
  wp m w Q1 E1 → wp m w Q2 E2 →
  wp m w (λ a w', Q1 a w' ∧ Q2 a w') (λ e w', E1 e w' ∧ E2 e w').
Proof. unfold wp. by destruct (m w) as [[a|e] w']. Qed.

Lemma wp_any {A} (m : Py A) w : wp m w (λ _ _, True) (λ _ _, True).
Proof. unfold wp. by destruct (m w) as [[a|e] w']. Qed.

Lemma quiet_refl w : quiet w w.
Proof. done. Qed.

Lemma quiet_trans w1 w2 w3 : quiet w1 w2 → quiet w2 w3 → quiet w1 w3.
Proof. intros [??] [??]. split; congruence. Qed.

Lemma wp_randbelow_quiet n w E : wp (randbelow n) w (λ _ w', quiet w w') E.
Proof. unfold wp, randbelow. by destruct (tape w). Qed.

Lemma wp_random_choice_quiet w E :
  wp (random_choice preferences) w (λ _ w', quiet w w') E.
Proof.
  unfold wp, random_choice, bind, randbelow, preferences.
  destruct (tape w) as [|x t]; [done|]. cbn [length].
  pose proof (Nat.mod_upper_bound x 2).
  destruct (x mod 2)%nat as [|[|j]]; [done | done | lia].
Qed.

Lemma wp_random_shuffle_quiet {A} (x : list A) w E :
  wp (random_shuffle x) w (λ _ w', quiet w w') E.
Proof.
  unfold random_shuffle.
  eapply wp_mono; [apply (wp_for_each (λ _ _ w', quiet w w') E) | done..].
  - done.
  - intros i k y w1 _ Hq. apply wp_bind.
    eapply wp_mono; [apply (wp_randbelow_quiet _ _ E) | | done].
    intros j w2 Hq2. apply wp_ret. by eapply quiet_trans.
Qed.

Lemma wp_assign_preferences_quiet n w E :
  wp (assign_preferences n) w (λ _ w', quiet w w') E.
Proof.
  unfold assign_preferences.
  eapply wp_mono; [apply (wp_for_each (λ _ _ w', quiet w w') E) | done..].
  - done.
  - intros i x p w1 _ Hq.
    assert (wp (p0 ← random_choice preferences;
                ret (<[(Z.of_nat x + 1)%Z:=p0]> p)) w1
              (λ _ w', quiet w w') E) as Hchoice.
    { apply wp_bind.
      eapply wp_mono; [apply (wp_random_choice_quiet _ E) | | done].
      intros v w2 Hq2. apply wp_ret. by eapply quiet_trans. }
    repeat case_decide; by try apply wp_ret.
Qed.

(** The allocator returns, and what it returns is [allocated]. *)
Lemma assign_preferences_run n w :
  ∃ p w1, assign_preferences n w = (Ret p, w1) ∧ allocated n p ∧ quiet w w1.
Proof.
  pose proof (wp_conj _ _ _ _ _ _
    (wp_assign_preferences n w (λ _ _, False)
       (λ p w', allocated n p ∧ heap w' = heap w) (λ p w' Hp Hw, conj Hp Hw))
    (wp_assign_preferences_quiet n w (λ _ _, True))) as H.
  unfold wp in H. destruct (assign_preferences n w) as [[p|e] w1].
  - exists p, w1. by destruct H as [[Hp _] Hq].
  - by destruct H.
Qed.

(** ** What a call prints *)

Lemma wp_place_dishes_stdout g valid dishes w :
  wp (place_dishes g valid dishes) w
    (λ _ w', stdout w' = stdout w
               ++ (unplaced_line <$> seq (length valid) (length dishes - length valid)))
    (λ _ _, True).
Proof.
  unfold place_dishes, enumerate.
  pose (I := λ (i : nat) (_ : list dish) (w' : world),
    stdout w' = stdout w ++ (unplaced_line <$> seq (length valid) (i - length valid))).
  eapply wp_mono; [apply (wp_for_each I (λ _ _, True)) | | done].
  - unfold I. cbn. by rewrite app_nil_r.
  - intros i [i' ch] dp w1 Hi HI. rewrite list_lookup_imap in Hi.
    destruct (dishes !! i) as [ch'|] eqn:Hch; [|done].
    cbn in Hi. injection Hi as <- <-. unfold I in *.
    case_decide as Hlt.
    + apply wp_bind. unfold list_getitem.
      destruct (valid !! i) as [[row col]|]; [|done]. apply wp_ret.
      apply wp_bind. unfold wp at 1, ndarray_setitem.
      destruct (heap w1 !! g) as [cur|]; [|done].
      destruct (ndarray_set cur row col ch') as [cur'|]; [|done].
      apply wp_ret. cbn [stdout]. rewrite HI.
      by replace (S i - length valid)%nat with (i - length valid)%nat by lia.
    + apply wp_bind. unfold wp at 1, print. apply wp_ret. cbn [stdout].
      rewrite HI.
      replace (S i - length valid)%nat with (S (i - length valid)) by lia.
      rewrite seq_S, fmap_app, app_assoc. cbn [fmap list_fmap].
      by replace (length valid + (i - length valid))%nat with i by lia.
  - intros dp w' HI. unfold I in HI. by rewrite length_imap in HI.
Qed.

(** X3. A call that returns has printed exactly the diagnostics: nothing
    when there are at least as many eligible cells as occupants; otherwise
    the two warning lines, then one line for each dish that found no cell,
    numbered from [M + 1] to [N]. *)
Theorem generate_stdout grid rooms people_positions occupied w
    kitchen_rows kitchen_cols a g p d w' :
  rooms !! "K" = Some (kitchen_rows, kitchen_cols) →
  heap w !! grid = Some a →
  generate_dishes_and_preferences grid rooms people_positions occupied w
    = (Ret (g, p, d), w') →
  stdout w' = stdout w
    ++ diagnostics (length (eligible_cells a kitchen_rows kitchen_cols occupied))
                   (length people_positions).
Proof.
  intros HK Hgrid Hrun.
  set (M := length (eligible_cells a kitchen_rows kitchen_cols occupied)).
  set (N := length people_positions).
  refine (wp_run _ w (λ _ w', stdout w' = stdout w ++ diagnostics M N)
            (λ _ _, True) _ w' _ Hrun).
  unfold generate_dishes_and_preferences.
  apply wp_bind. unfold dict_getitem. rewrite HK. apply wp_ret.
  apply wp_bind. unfold wp at 1.
  destruct (assign_preferences_run N w) as (p1 & w1 & Hrun1 & Hp & Hh1 & Hs1).
  unfold N in Hrun1. rewrite Hrun1.
  apply wp_bind. unfold wp at 1.
  rewrite (find_valid_kitchen_positions_run grid a) by congruence.
  case_decide; [|done]. fold M.
  apply wp_bind.
  apply wp_mono with
    (Q := λ _ w2, stdout w2 = stdout w
                    ++ (if decide (M < N)%nat then warning_lines M N else []))
    (E := λ _ _, True); [| |done].
  { case_decide.
    - apply wp_bind. unfold wp at 1, print. unfold wp, print. cbn [stdout].
      rewrite decide_True by done. by rewrite Hs1, <-app_assoc.
    - apply wp_ret. rewrite decide_False by done. by rewrite app_nil_r. }
  intros _ w2 Hs2. apply wp_bind. unfold wp at 1, ndarray_copy.
  destruct (heap w2 !! grid) as [a2|]; [|done].
  apply wp_bind.
  eapply wp_mono;
    [apply (wp_conj _ _ _ _ _ _
       (wp_random_shuffle _ _ (λ _ _, True) (λ y w', y ≡ₚ eligible_cells a kitchen_rows kitchen_cols occupied)
          (λ y w' Hy _, Hy))
       (wp_random_shuffle_quiet _ _ (λ _ _, True))) | | done].
  intros valid w4 [Hvalid [_ Hs4]]. cbn [stdout] in Hs4.
  apply wp_bind.
  eapply wp_mono;
    [apply (wp_conj _ _ _ _ _ _
       (wp_random_shuffle _ _ (λ _ _, True)
          (λ y w', y ≡ₚ replicate (count_values "vegan" p1) "V"%char
                         ++ replicate (count_values "non-vegetarian" p1) "N"%char)
          (λ y w' Hy _, Hy))
       (wp_random_shuffle_quiet _ _ (λ _ _, True))) | | done].
  intros dishes w5 [Hdishes [_ Hs5]].
  apply wp_bind.
  eapply wp_mono; [apply wp_place_dishes_stdout | | done].
  intros dp w6 Hs6. apply wp_ret.
  rewrite Hs6, Hs5, Hs4, Hs2, Hvalid, Hdishes.
  rewrite length_app, !length_replicate, (alloc_total _ _ Hp). fold M.
  unfold diagnostics. case_decide.
  - by rewrite <-app_assoc.
  - replace (N - M)%nat with 0%nat by lia. cbn. by rewrite !app_nil_r.
Qed.

Lemma generate_stdout_witness :
  stdout Examples.out_crowd.2 = stdout Examples.world0
    ++ diagnostics
         (length (eligible_cells Examples.grid (Slice 0 2) (Slice 0 3)
                    Examples.occupied))
         (length Examples.crowd).
Proof.
  apply (generate_stdout 1%positive Examples.rooms Examples.crowd
           Examples.occupied Examples.world0 (Slice 0 2) (Slice 0 3)
           Examples.grid Examples.out_crowd.1.1.1 Examples.out_crowd.1.1.2
           Examples.out_crowd.1.2 Examples.out_crowd.2).
  - reflexivity.
  - reflexivity.
  - vm_compute. reflexivity.
Defined.

(** ** How a call fails *)

(** X1. Without a ['K'] entry in [rooms] the call raises [KeyError] at
    once: no random draw is taken, nothing is printed, nothing is allocated. *)
Theorem generate_no_kitchen grid rooms people_positions occupied w :
  rooms !! "K" = None →
  generate_dishes_and_preferences grid rooms people_positions occupied w
    = (Raise KeyError, w).
Proof.
  intros HK. unfold generate_dishes_and_preferences, bind, dict_getitem.
  by rewrite HK.
Qed.

Lemma generate_no_kitchen_witness :
  generate_dishes_and_preferences 1%positive ∅ Examples.people ∅ Examples.world0
  = (Raise KeyError, Examples.world0).
Proof.
  apply (generate_no_kitchen 1%positive ∅ Examples.people ∅ Examples.world0).
  reflexivity.
Defined.



(** ** Writes seen from any coordinate *)

(** After one write, a coordinate reads what it read before, or it reads the
    written value and addresses the written cell (in every array of this
    shape). *)
Lemma ndarray_get_set_cases a r c v a' r' c' :
  ndarray_set a r c v = Some a' →
  ndarray_get a' r' c' = ndarray_get a r' c' ∨
  (ndarray_get a' r' c' = Some v ∧
   ∀ b, shape b = shape a → ndarray_get b r' c' = ndarray_get b r c).
Proof.
  intros Hset. unfold ndarray_set in Hset.
  destruct (norm_index (length a) r) as [i|] eqn:Hr; simplify_eq/=.
  destruct (a !! i) as [row|] eqn:Hi; simplify_eq/=.
  destruct (norm_index (length row) c) as [j|] eqn:Hc; simplify_eq/=.
  assert (i < length a)%nat as Hilt by (by eapply lookup_lt_Some).
  destruct (norm_index (length a) r') as [i'|] eqn:Hr'; last first.
  { left. unfold ndarray_get. by rewrite length_insert, Hr'. }
  destruct (decide (i = i')) as [<-|Hii]; last first.
  { left. unfold ndarray_get. rewrite length_insert, Hr'. cbn.
    by rewrite list_lookup_insert_ne. }
  destruct (norm_index (length row) c') as [j'|] eqn:Hc'; last first.
  { left. unfold ndarray_get. rewrite length_insert, Hr'. cbn.
    rewrite list_lookup_insert_eq, Hi by done. cbn.
    by rewrite length_insert, Hc'. }
  destruct (decide (j = j')) as [<-|Hjj]; last first.
  { left. unfold ndarray_get. rewrite length_insert, Hr'. cbn.
    rewrite list_lookup_insert_eq, Hi by done. cbn.
    rewrite length_insert, Hc'. cbn. by rewrite list_lookup_insert_ne. }
  right. split.
  - unfold ndarray_get. rewrite length_insert, Hr'. cbn.
    rewrite list_lookup_insert_eq by done. cbn.
    rewrite length_insert, Hc'. cbn.
    apply list_lookup_insert_eq. by apply norm_index_Some in Hc as [? _].
  - intros b Hb. unfold ndarray_get, shape in *.
    assert (length b = length a) as ->
      by (rewrite <-(length_fmap length b), Hb; apply length_fmap).
    rewrite Hr, Hr'. cbn.
    pose proof (f_equal (.!! i) Hb) as Hbi. rewrite !list_lookup_fmap, Hi in Hbi.
    destruct (b !! i) as [rowb|]; [|done]. cbn in Hbi. injection Hbi as Hlen.
    cbn. by rewrite Hlen, Hc, Hc'.
Qed.

Lemma write_all_cases a l b r' c' :
  write_all a l = Some b →
  ndarray_get b r' c' = ndarray_get a r' c' ∨
  ∃ r c v, (r, c, v) ∈ l ∧ ndarray_get b r' c' = Some v ∧
           ndarray_get a r' c' = ndarray_get a r c.
Proof.
  revert b. induction l as [|[[r c] v] l IH] using rev_ind; intros b Hb.
  { left. by simplify_eq/=. }
  rewrite write_all_snoc in Hb.
  destruct (write_all a l) as [b0|] eqn:Hb0; simplify_eq/=.
  destruct (ndarray_get_set_cases _ _ _ _ _ r' c' Hb) as [Hsame|[Hv Halias]].
  - rewrite Hsame. destruct (IH b0 eq_refl) as [?|(r0 & c0 & v0 & Hin & ? & ?)];
      [by left|right].
    exists r0, c0, v0. split; [|done]. apply elem_of_app. by left.
  - right. exists r, c, v. split_and!; [|done|].
    + apply elem_of_app. right. by left.
    + apply Halias. symmetry. by eapply write_all_shape.
Qed.

(** What [generated] says about the dish characters and the written cells. *)
Lemma generated_writes a kr kc n occupied w g p d w' valid dishes final r c v :
  generated a kr kc n occupied w g p d w' valid dishes final →
  (r, c, v) ∈ placements valid dishes →
  (v = "V"%char ∨ v = "N"%char) ∧
  start kr ≤ r < stop kr ∧ start kc ≤ c < stop kc ∧
  ((r, c) ∉ occupied) ∧ ndarray_get a r c = Some "K"%char.
Proof.
  intros [_ _ Hvalid Hdishes _ _ _ _] [Hrc Hv]%elem_of_placements.
  rewrite Hvalid in Hrc. rewrite Hdishes in Hv.
  apply list_elem_of_filter in Hrc as [[Hocc Hcell] [??]%elem_of_region].
  cbn [fst snd] in Hcell. split; [|split_and!; done || lia].
  apply elem_of_app in Hv as [[-> _]%elem_of_replicate|[-> _]%elem_of_replicate];
    auto.
Qed.

Lemma generated_bears a kr kc n occupied w g p d w' valid dishes final :
  generated a kr kc n occupied w g p d w' valid dishes final →
  0 ≤ start kr → 0 ≤ start kc →
  ∀ r c t, (r, c, t) ∈ d →
    ndarray_get final r c = Some "V"%char ∨ ndarray_get final r c = Some "N"%char.
Proof.
  intros Hgen Hr0 Hc0 r c t Hin.
  pose proof Hgen as [_ _ Hvalid _ -> _ Hfinal _].
  apply elem_of_dish_list in Hin as (ch & _ & Hin).
  destruct (generated_writes _ _ _ _ _ _ _ _ _ _ _ _ _ _ _ _ Hgen Hin)
    as (Hch & _).
  assert (ndarray_get final r c = Some ch) as ->;
    [|destruct Hch as [-> | ->]; auto].
  apply (write_all_written _ _ _ _ _ _ Hfinal); [| |done].
  - apply Forall_forall. intros [[r1 c1] ch1] Hin1.
    destruct (generated_writes _ _ _ _ _ _ _ _ _ _ _ _ _ _ _ _ Hgen Hin1)
      as (_ & ? & ? & _). cbn. lia.
  - rewrite placements_cells. apply NoDup_take. rewrite Hvalid.
    apply NoDup_eligible_cells.
Qed.

Lemma dish_cells_entries (l : list (Z * Z * ascii)) :
  dish_cells (dish_entry <$> l) = fst <$> l.
Proof.
  unfold dish_cells. induction l as [|[[r c] ch] l IH]; [done|]. cbn. by f_equal.
Qed.

Lemma dish_entry_label valid dishes vegan_count non_veg_count :
  dishes ≡ₚ replicate vegan_count "V"%char ++ replicate non_veg_count "N"%char →
  Forall (λ x : dish, is_label x.2) (dish_entry <$> placements valid dishes).
Proof.
  intros Hdishes. apply Forall_forall. intros [[r c] t] Hin.
  apply elem_of_dish_list in Hin as (ch & -> & _). cbn.
  unfold is_label, dish_type_name. case_decide; auto.
Qed.

Lemma count_values_people label (p : prefs) :
  length (people_with label p) = count_values label p.
Proof.
  unfold people_with, count_values. rewrite length_fmap.
  induction (map_to_list p) as [|[k v] l IH]; [done|].
  rewrite fmap_cons, !filter_cons. cbn [snd].
  case_decide; cbn [length]; by rewrite IH.
Qed.

Lemma size_allocated n (p : prefs) : allocated n p → size p = n.
Proof.
  intros [_ Hlabels Htotal _ _]. rewrite <-length_map_to_list, <-Htotal.
  rewrite <-!count_values_people. unfold people_with. rewrite !length_fmap.
  symmetry. apply length_filter_partition.
  - apply Forall_forall. intros [k v] Hkv%elem_of_map_to_list.
    by apply (Hlabels k).
  - by intros [k v] -> [=].
Qed.

(** The two filters of a list that holds only the two labels share it out. *)
Lemma find_dishes_by_type_split (d : list dish) :
  Forall (λ x : dish, is_label x.2) d →
  find_dishes_by_type d "vegan" ++ find_dishes_by_type d "non-vegetarian"
  ≡ₚ dish_cells d.
Proof.
  unfold find_dishes_by_type, dish_cells.
  induction 1 as [|[[r c] t] d Ht _ IH]; [done|].
  rewrite !filter_cons. cbn [fst snd] in *.
  destruct Ht as [-> | ->].
  - rewrite decide_True, decide_False by done. cbn. by rewrite IH.
  - rewrite decide_False, decide_True by done. cbn.
    by rewrite <-Permutation_middle, IH.
Qed.

(** The preference map of a call is the one the allocator made. *)
Lemma generate_prefs_run grid rooms people_positions occupied w g p d w' :
  generate_dishes_and_preferences grid rooms people_positions occupied w
    = (Ret (g, p, d), w') →
  ∃ w1, assign_preferences (length people_positions) w = (Ret p, w1).
Proof.
  intros Hrun.
  destruct (generate_ret_inputs _ _ _ _ _ _ _ Hrun) as (kr & kc & a & HK & _).
  destruct (assign_preferences_run (length people_positions) w)
    as (p1 & w1 & Hrun1 & _).
  exists w1. enough (p = p1) as -> by done.
  refine (wp_run _ w (λ r _, r.1.2 = p1) (λ _ _, True) (g, p, d) w' _ Hrun).
  unfold generate_dishes_and_preferences.
  apply wp_bind. unfold dict_getitem. rewrite HK. apply wp_ret.
  apply wp_bind. unfold wp at 1. rewrite Hrun1.
  do 6 (apply wp_bind; eapply wp_mono; [apply wp_any | intros ? ? _ | done]).
  by apply wp_ret.
Qed.

Lemma random_choice_draw w x t :
  tape w = x :: t →
  ∃ s, preferences !! (x mod 2)%nat = Some s ∧
       random_choice preferences w = (Ret s, World (heap w) t (stdout w)).
Proof.
  intros Ht. unfold random_choice, preferences, bind, randbelow, list_getitem.
  rewrite Ht. cbn [length]. pose proof (Nat.mod_upper_bound x 2).
  destruct (x mod 2)%nat as [|[|j]]; [by eauto..|lia].
Qed.

Lemma assign_preferences_first_draw n w x t p w1 :
  (2 ≤ n)%nat → tape w = x :: t →
  assign_preferences n w = (Ret p, w1) →
  p !! 1 = preferences !! (x mod 2)%nat.
Proof.
  intros Hn Ht Hrun.
  refine (wp_run _ w (λ p _, p !! 1 = preferences !! (x mod 2)%nat)
            (λ _ _, True) p w1 _ Hrun).
  unfold assign_preferences, range_nat.
  destruct n as [|[|m]]; [lia..|].
  change (seq 0 (S (S m))) with (0 :: seq 1 (S m))%nat.
  cbn [for_each]. apply wp_bind.
  assert (0 < S (S m) `div` 2)%nat
    by (apply Nat.div_str_pos; lia).
  rewrite decide_True by done.
  destruct (random_choice_draw w x t Ht) as (s & -> & Hchoice).
  apply wp_bind. unfold wp at 1. rewrite Hchoice. cbv beta iota.
  apply wp_ret. cbv beta.
  eapply wp_mono;
    [apply (wp_for_each (λ _ (p : prefs) _, p !! 1 = Some s) (λ _ _, True)) | done..].
  - apply lookup_insert_eq.
  - intros i k q w2 [-> _]%lookup_seq Hq.
    assert (∀ s', <[(Z.of_nat (1 + i) + 1)%Z:=s']> q !! 1 = Some s) as Hkeep
      by (intros s'; rewrite lookup_insert_ne by lia; done).
    repeat case_decide; try by apply wp_ret.
    all: apply wp_bind, wp_random_choice_preferences; intros; by apply wp_ret.
Qed.

(** ** Edge cases and what is never written *)

(** X4. With no occupant, or with no eligible cell, nothing is placed: the
    dish placement list is empty and the returned grid is a copy of the input
    grid, cell for cell. *)
Theorem nothing_to_place grid rooms people_positions occupied w
    kitchen_rows kitchen_cols a g p d w' :
  rooms !! "K" = Some (kitchen_rows, kitchen_cols) →
  heap w !! grid = Some a →
  generate_dishes_and_preferences grid rooms people_positions occupied w
    = (Ret (g, p, d), w') →
  people_positions = [] ∨ eligible_cells a kitchen_rows kitchen_cols occupied = [] →
  d = [] ∧ heap w' !! g = Some a ∧ g ≠ grid.
Proof.
  intros HK Hgrid Hrun Hnone.
  destruct (generate_returns _ _ _ _ _ _ _ _ _ _ _ _ HK Hgrid Hrun)
    as (valid & dishes & final & [Hp _ Hvalid Hdishes -> Hfresh Hfinal Hheap]).
  assert (placements valid dishes = []) as HP.
  { apply nil_length_inv. rewrite length_placements, Hvalid, Hdishes.
    rewrite length_app, !length_replicate, (alloc_total _ _ Hp).
    destruct Hnone as [-> | ->]; cbn; lia. }
  rewrite HP in *. cbn in Hfinal. injection Hfinal as <-.
  split_and!; [done | by rewrite Hheap, lookup_insert_eq | congruence].
Qed.

Lemma nothing_to_place_witness :
  MoreExamples.out_empty.1.2 = [] ∧
  heap MoreExamples.out_empty.2 !! MoreExamples.out_empty.1.1.1 = Some Examples.grid ∧
  MoreExamples.out_empty.1.1.1 ≠ 1%positive.
Proof.
  apply (nothing_to_place 1%positive Examples.rooms [] ∅ Examples.world0
           (Slice 0 2) (Slice 0 3) Examples.grid
           MoreExamples.out_empty.1.1.1 MoreExamples.out_empty.1.1.2
           MoreExamples.out_empty.1.2 MoreExamples.out_empty.2).
  - reflexivity.
  - reflexivity.
  - vm_compute. reflexivity.
  - left. reflexivity.
Defined.

(** X5. For every call that returns, also one whose region wraps around the
    grid: the returned grid has the shape of the input grid, and a coordinate
    that reads differently in it read ['K'] in the input and now reads ['V']
    or ['N'].  Walls, doors, counters, fridges and other rooms are never
    overwritten. *)
Theorem only_floor_overwritten grid rooms people_positions occupied w
    kitchen_rows kitchen_cols a g p d w' :
  rooms !! "K" = Some (kitchen_rows, kitchen_cols) →
  heap w !! grid = Some a →
  generate_dishes_and_preferences grid rooms people_positions occupied w
    = (Ret (g, p, d), w') →
  ∃ final, heap w' !! g = Some final ∧ shape final = shape a ∧
    ∀ r c, ndarray_get final r c = ndarray_get a r c ∨
           (ndarray_get a r c = Some "K"%char ∧
            (ndarray_get final r c = Some "V"%char ∨
             ndarray_get final r c = Some "N"%char)).
Proof.
  intros HK Hgrid Hrun.
  destruct (generate_returns _ _ _ _ _ _ _ _ _ _ _ _ HK Hgrid Hrun)
    as (valid & dishes & final & Hgen).
  pose proof Hgen as [_ _ _ _ _ _ Hfinal Hheap].
  exists final. split_and!.
  - by rewrite Hheap, lookup_insert_eq.
  - by eapply write_all_shape.
  - intros r' c'.
    destruct (write_all_cases _ _ _ r' c' Hfinal)
      as [?|(r & c & v & Hin & Hv & Halias)]; [by left|right].
    destruct (generated_writes _ _ _ _ _ _ _ _ _ _ _ _ _ _ _ _ Hgen Hin)
      as (Hch & _ & _ & _ & HK').
    split; [congruence|]. rewrite Hv. destruct Hch as [-> | ->]; auto.
Qed.

Lemma only_floor_overwritten_witness :
  ∃ final, heap Examples.out.2 !! Examples.out.1.1.1 = Some final ∧
    shape final = shape Examples.grid ∧
    ∀ r c, ndarray_get final r c = ndarray_get Examples.grid r c ∨
           (ndarray_get Examples.grid r c = Some "K"%char ∧
            (ndarray_get final r c = Some "V"%char ∨
             ndarray_get final r c = Some "N"%char)).
Proof.
  apply (only_floor_overwritten 1%positive Examples.rooms Examples.people ∅
           Examples.world0 (Slice 0 2) (Slice 0 3) Examples.grid
           Examples.out.1.1.1 Examples.out.1.1.2 Examples.out.1.2 Examples.out.2).
  - reflexivity.
  - reflexivity.
  - vm_compute. reflexivity.
Defined.

(** X6. A second call on the grid a first call returned places no dish on a
    coordinate where the first call placed one, when the first kitchen region
    starts at indices that are not negative: the placed cells no longer read
    ['K']. *)
Theorem successive_calls_disjoint grid rooms people_positions occupied w
    kitchen_rows kitchen_cols a g p d w'
    rooms2 people_positions2 occupied2 g2 p2 d2 w2 :
  rooms !! "K" = Some (kitchen_rows, kitchen_cols) →
  0 ≤ start kitchen_rows → 0 ≤ start kitchen_cols →
  heap w !! grid = Some a →
  generate_dishes_and_preferences grid rooms people_positions occupied w
    = (Ret (g, p, d), w') →
  generate_dishes_and_preferences g rooms2 people_positions2 occupied2 w'
    = (Ret (g2, p2, d2), w2) →
  Forall (λ rc, rc ∉ dish_cells d2) (dish_cells d).
Proof.
  intros HK Hr0 Hc0 Hgrid Hrun Hrun2.
  destruct (generate_returns _ _ _ _ _ _ _ _ _ _ _ _ HK Hgrid Hrun)
    as (valid & dishes & final & Hgen).
  pose proof (generated_bears _ _ _ _ _ _ _ _ _ _ _ _ _ Hgen Hr0 Hc0) as Hbears.
  destruct (generate_ret_inputs _ _ _ _ _ _ _ Hrun2) as (kr2 & kc2 & a2 & HK2 & Hg2).
  rewrite (gen_heap _ _ _ _ _ _ _ _ _ _ _ _ _ Hgen), lookup_insert_eq in Hg2.
  injection Hg2 as <-.
  destruct (generate_returns _ _ _ _ _ _ _ _ _ _ _ _ HK2
              (eq_trans (f_equal (.!! g) (gen_heap _ _ _ _ _ _ _ _ _ _ _ _ _ Hgen))
                        (lookup_insert_eq _ _ _)) Hrun2)
    as (valid2 & dishes2 & final2 & Hgen2).
  apply Forall_forall. intros [r c] Hin Hin2.
  unfold dish_cells in Hin, Hin2.
  apply list_elem_of_fmap in Hin as ([[r1 c1] t1] & [= <- <-] & Hin).
  apply list_elem_of_fmap in Hin2 as ([[r2 c2] t2] & [= <- <-] & Hin2).
  rewrite (gen_list _ _ _ _ _ _ _ _ _ _ _ _ _ Hgen2) in Hin2.
  apply elem_of_dish_list in Hin2 as (ch & _ & Hin2).
  destruct (generated_writes _ _ _ _ _ _ _ _ _ _ _ _ _ _ _ _ Hgen2 Hin2)
    as (_ & _ & _ & _ & HKcell).
  destruct (Hbears r c t1 Hin) as [HV|HN]; congruence.
Qed.

Lemma successive_calls_disjoint_witness :
  Forall (λ rc, rc ∉ dish_cells MoreExamples.out_second.1.2)
         (dish_cells Examples.out.1.2).
Proof.
  apply (successive_calls_disjoint 1%positive Examples.rooms Examples.people ∅
           Examples.world0 (Slice 0 2) (Slice 0 3) Examples.grid
           Examples.out.1.1.1 Examples.out.1.1.2 Examples.out.1.2 Examples.out.2
           Examples.rooms Examples.people ∅
           MoreExamples.out_second.1.1.1 MoreExamples.out_second.1.1.2
           MoreExamples.out_second.1.2 MoreExamples.out_second.2).
  - reflexivity.
  - cbn. lia.
  - cbn. lia.
  - reflexivity.
  - vm_compute. reflexivity.
  - vm_compute. reflexivity.
Defined.

(** ** The queries on what a call returns *)

(** X7. The summary of what a call returned: [total_people] is the number
    of occupants and the two people counts add up to it; the two dish counts
    add up to [min M N]; no category has more dishes than people; and with at
    least two occupants both people counts are positive. *)
Theorem summary_of_generated grid rooms people_positions occupied w
    kitchen_rows kitchen_cols a g p d w' :
  rooms !! "K" = Some (kitchen_rows, kitchen_cols) →
  heap w !! grid = Some a →
  generate_dishes_and_preferences grid rooms people_positions occupied w
    = (Ret (g, p, d), w') →
  let s := get_dish_assignment_summary p d in
  let M := length (eligible_cells a kitchen_rows kitchen_cols occupied) in
  let N := length people_positions in
  total_people s = N ∧
  (vegan_people_count s + non_vegetarian_people_count s = N)%nat ∧
  (vegan_dishes_count s + non_vegetarian_dishes_count s = M `min` N)%nat ∧
  (vegan_dishes_count s ≤ vegan_people_count s)%nat ∧
  (non_vegetarian_dishes_count s ≤ non_vegetarian_people_count s)%nat ∧
  ((2 ≤ N)%nat →
   (1 ≤ vegan_people_count s)%nat ∧ (1 ≤ non_vegetarian_people_count s)%nat).
Proof.
  intros HK Hgrid Hrun s M N.
  destruct (generate_returns _ _ _ _ _ _ _ _ _ _ _ _ HK Hgrid Hrun)
    as (valid & dishes & final & [Hp _ Hvalid Hdishes -> _ _ _]).
  destruct (dishes_count _ _ _ Hdishes) as [Hveg Hnon].
  unfold s. cbn [total_people vegan_people_count non_vegetarian_people_count
                 vegan_dishes_count non_vegetarian_dishes_count
                 get_dish_assignment_summary].
  rewrite !count_values_people. split_and!.
  - by apply size_allocated.
  - by apply alloc_total.
  - unfold find_dishes_by_type. rewrite !length_fmap.
    rewrite length_filter_partition.
    + rewrite length_fmap, length_placements, Hvalid, Hdishes.
      by rewrite length_app, !length_replicate, (alloc_total _ _ Hp).
    + by eapply dish_entry_label.
    + by intros [[r c] t] -> [=].
  - rewrite find_dishes_by_type_count.
    etrans; [apply length_filter_take | by rewrite Hveg].
  - rewrite find_dishes_by_type_count.
    etrans; [apply length_filter_take | by rewrite Hnon].
  - by apply alloc_both.
Qed.

Lemma summary_of_generated_witness :
  let s := get_dish_assignment_summary Examples.out_crowd.1.1.2 Examples.out_crowd.1.2 in
  let M := length (eligible_cells Examples.grid (Slice 0 2) (Slice 0 3)
                     Examples.occupied) in
  let N := length Examples.crowd in
  total_people s = N ∧
  (vegan_people_count s + non_vegetarian_people_count s = N)%nat ∧
  (vegan_dishes_count s + non_vegetarian_dishes_count s = M `min` N)%nat ∧
  (vegan_dishes_count s ≤ vegan_people_count s)%nat ∧
  (non_vegetarian_dishes_count s ≤ non_vegetarian_people_count s)%nat ∧
  ((2 ≤ N)%nat →
   (1 ≤ vegan_people_count s)%nat ∧ (1 ≤ non_vegetarian_people_count s)%nat).
Proof.
  apply (summary_of_generated 1%positive Examples.rooms Examples.crowd
           Examples.occupied Examples.world0 (Slice 0 2) (Slice 0 3)
           Examples.grid Examples.out_crowd.1.1.1 Examples.out_crowd.1.1.2
           Examples.out_crowd.1.2 Examples.out_crowd.2).
  - reflexivity.
  - reflexivity.
  - vm_compute. reflexivity.
Defined.

(** X8. On the preference map a call returned,
    [get_person_dietary_preference] answers ['unknown'] exactly for the
    numbers that are not a person number 1..N. *)
Theorem unknown_iff_not_a_person grid rooms people_positions occupied w g p d w'
    (person_number : Z) :
  generate_dishes_and_preferences grid rooms people_positions occupied w
    = (Ret (g, p, d), w') →
  get_person_dietary_preference person_number p = "unknown" ↔
  ¬ (1 ≤ person_number ≤ Z.of_nat (length people_positions)).
Proof.
  intros Hrun.
  destruct (generate_ret_inputs _ _ _ _ _ _ _ Hrun) as (kr & kc & a & HK & Hgrid).
  destruct (generate_returns _ _ _ _ _ _ _ _ _ _ _ _ HK Hgrid Hrun)
    as (valid & dishes & final & [[Hkeys Hlabels _ _ _] _ _ _ _ _ _ _]).
  unfold get_person_dietary_preference. rewrite <-Hkeys.
  destruct (p !! person_number) as [v|] eqn:Hv; cbn.
  - split; [|by intros []]. intros ->.
    by destruct (Hlabels _ _ Hv).
  - split; [|done]. by intros _ [??].
Qed.

Lemma unknown_iff_not_a_person_witness :
  get_person_dietary_preference 4 Examples.out.1.1.2 = "unknown" ↔
  ¬ (1 ≤ 4 ≤ Z.of_nat (length Examples.people)).
Proof.
  apply (unknown_iff_not_a_person 1%positive Examples.rooms Examples.people ∅
           Examples.world0 Examples.out.1.1.1 Examples.out.1.1.2
           Examples.out.1.2 Examples.out.2 4).
  vm_compute. reflexivity.
Defined.

(** X9. [find_dishes_by_type] returns the coordinates of the entries of the
    given type and of no other entry. *)
Theorem find_dishes_by_type_spec (dish_positions : list dish) (dish_type : string)
    (row col : Z) :
  (row, col) ∈ find_dishes_by_type dish_positions dish_type ↔
  (row, col, dish_type) ∈ dish_positions.
Proof.
  unfold find_dishes_by_type. rewrite list_elem_of_fmap. split.
  - intros ([[r c] t] & [= -> ->] & Hin).
    apply list_elem_of_filter in Hin as [Ht ?]. cbn in Ht. by subst.
  - intros Hin. exists (row, col, dish_type). split; [done|].
    by apply list_elem_of_filter.
Qed.

(** X10. In the dish placement list a call returned every type is ['vegan']
    or ['non-vegetarian']; the vegan and the non-vegetarian positions are
    pairwise distinct and together they are all the placed coordinates; any
    other type finds nothing. *)
Theorem found_dishes_split grid rooms people_positions occupied w g p d w' :
  generate_dishes_and_preferences grid rooms people_positions occupied w
    = (Ret (g, p, d), w') →
  Forall (λ x : dish, is_label x.2) d ∧
  find_dishes_by_type d "vegan" ++ find_dishes_by_type d "non-vegetarian"
    ≡ₚ dish_cells d ∧
  NoDup (find_dishes_by_type d "vegan" ++ find_dishes_by_type d "non-vegetarian") ∧
  (∀ t, ¬ is_label t → find_dishes_by_type d t = []).
Proof.
  intros Hrun.
  destruct (generate_ret_inputs _ _ _ _ _ _ _ Hrun) as (kr & kc & a & HK & Hgrid).
  destruct (generate_returns _ _ _ _ _ _ _ _ _ _ _ _ HK Hgrid Hrun)
    as (valid & dishes & final & [_ _ Hvalid Hdishes -> _ _ _]).
  pose proof (dish_entry_label valid dishes _ _ Hdishes) as Hlabels.
  split_and!.
  - done.
  - by apply find_dishes_by_type_split.
  - rewrite find_dishes_by_type_split by done.
    rewrite dish_cells_entries, placements_cells. apply NoDup_take.
    rewrite Hvalid. apply NoDup_eligible_cells.
  - intros t Ht. unfold find_dishes_by_type.
    revert Hlabels. generalize (dish_entry <$> placements valid dishes).
    intros l Hl. induction Hl as [|x l Hx _ IH]; [done|].
    rewrite filter_cons, decide_False; [done|]. by intros <-.
Qed.

Lemma found_dishes_split_witness :
  Forall (λ x : dish, is_label x.2) Examples.out.1.2 ∧
  find_dishes_by_type Examples.out.1.2 "vegan"
    ++ find_dishes_by_type Examples.out.1.2 "non-vegetarian"
    ≡ₚ dish_cells Examples.out.1.2 ∧
  NoDup (find_dishes_by_type Examples.out.1.2 "vegan"
           ++ find_dishes_by_type Examples.out.1.2 "non-vegetarian") ∧
  (∀ t, ¬ is_label t → find_dishes_by_type Examples.out.1.2 t = []).
Proof.
  apply (found_dishes_split 1%positive Examples.rooms Examples.people ∅
           Examples.world0 Examples.out.1.1.1 Examples.out.1.1.2
           Examples.out.1.2 Examples.out.2).
  vm_compute. reflexivity.
Defined.

(** ** The allocator *)

(** X11. With N >= 2 occupants neither label takes everything: each label is
    held by at least one and at most N - 1 of them; with two occupants, by
    exactly one each. *)
Theorem label_counts_bounds grid rooms people_positions occupied w g p d w' :
  (2 ≤ length people_positions)%nat →
  generate_dishes_and_preferences grid rooms people_positions occupied w
    = (Ret (g, p, d), w') →
  let N := length people_positions in
  (1 ≤ count_values "vegan" p ≤ N - 1)%nat ∧
  (1 ≤ count_values "non-vegetarian" p ≤ N - 1)%nat ∧
  (count_values "vegan" p + count_values "non-vegetarian" p = N)%nat.
Proof.
  intros Hn Hrun N.
  destruct (generate_ret_inputs _ _ _ _ _ _ _ Hrun) as (kr & kc & a & HK & Hgrid).
  destruct (generate_returns _ _ _ _ _ _ _ _ _ _ _ _ HK Hgrid Hrun)
    as (valid & dishes & final & [[_ _ Htotal Hboth _] _ _ _ _ _ _ _]).
  destruct (Hboth Hn). fold N in Htotal. lia.
Qed.

Lemma label_counts_bounds_witness :
  let N := length Examples.people in
  (1 ≤ count_values "vegan" Examples.out.1.1.2 ≤ N - 1)%nat ∧
  (1 ≤ count_values "non-vegetarian" Examples.out.1.1.2 ≤ N - 1)%nat ∧
  (count_values "vegan" Examples.out.1.1.2
     + count_values "non-vegetarian" Examples.out.1.1.2 = N)%nat.
Proof.
  apply (label_counts_bounds 1%positive Examples.rooms Examples.people ∅
           Examples.world0 Examples.out.1.1.1 Examples.out.1.1.2
           Examples.out.1.2 Examples.out.2).
  - cbn. lia.
  - vm_compute. reflexivity.
Defined.

(** X12. With N >= 2 occupants the label of person 1 is the one the first
    draw of the random generator picks from [['vegan', 'non-vegetarian']],
    and no later iteration changes it: both labels are possible for
    person 1. *)
Theorem first_draw_decides grid rooms people_positions occupied w g p d w' x t :
  (2 ≤ length people_positions)%nat →
  tape w = x :: t →
  generate_dishes_and_preferences grid rooms people_positions occupied w
    = (Ret (g, p, d), w') →
  p !! 1 = preferences !! (x mod 2)%nat.
Proof.
  intros Hn Ht Hrun.
  destruct (generate_prefs_run _ _ _ _ _ _ _ _ _ Hrun) as [w1 Hrun1].
  by eapply assign_preferences_first_draw.
Qed.

Lemma first_draw_decides_witness :
  Examples.out.1.1.2 !! 1 = preferences !! (1 mod 2)%nat.
Proof.
  apply (first_draw_decides 1%positive Examples.rooms Examples.people ∅
           Examples.world0 Examples.out.1.1.1 Examples.out.1.1.2
           Examples.out.1.2 Examples.out.2 1%nat [1; 0; 2; 1; 3; 0; 1]%nat).
  - cbn. lia.
  - reflexivity.
  - vm_compute. reflexivity.
Defined.
